(** * Custom-tag normalisation of YAML documents (yamlParser07.ts)

    A shallow embedding of [transform] and [createPairFrom] from
    [src/languageservice/parser/yamlParser07.ts], together with the parts of
    the [yaml] package they call ([visit], [YAMLMap.add], [Node.clone],
    [Document.createNode], [Document.createPair]), and the properties the
    specification states about them. *)

From Stdlib Require Import String Ascii List ZArith Lia Bool.
From stdpp Require Import base option list gmap strings pretty.

Local Open Scope string_scope.
Local Open Scope list_scope.
Set Warnings "-register-all".

(** ** Outcome of a JavaScript computation

    A call either returns a value, or throws an [Error] carrying a message.
    [OutOfFuel] only arises in the fuel-indexed model of the library's
    recursive [visit_]; [transform_settles] below shows that
    [transform] itself never produces it. *)

Inductive result (A : Type) : Type :=
| Ok (a : A)
| Throw (msg : string)
| OutOfFuel.

Arguments Ok {A} a.
Arguments Throw {A} msg.
Arguments OutOfFuel {A}.

#[global] Instance result_ret : MRet result := fun A a => Ok a.
#[global] Instance result_bind : MBind result := fun A B f m =>
  match m with
  | Ok a => f a
  | Throw msg => Throw msg
  | OutOfFuel => OutOfFuel
  end.

(** Sequential loop over an array, stopping at the first exception. *)
Fixpoint forM {A B} (f : A -> result B) (l : list A) : result (list B) :=
  match l with
  | [] => Ok []
  | x :: l' =>
      y ← f x;
      ys ← forM f l';
      Ok (y :: ys)
  end.

(** ** JavaScript string primitives used by [transform] *)

Module JS.

(** [s.split(sep)] for a one-character separator: every occurrence of
    the separator cuts, so the result always has at least one element. *)
Fixpoint split (sep : ascii) (s : string) : list string :=
  match s with
  | EmptyString => [EmptyString]
  | String c s' =>
      if Ascii.eqb c sep then EmptyString :: split sep s'
      else match split sep s' with
           | [] => [String c EmptyString]
           | w :: ws => String c w :: ws
           end
  end.

(** The rest of [s] after [pat], when [s] starts with [pat]. *)
Fixpoint strip_prefix (pat s : string) : option string :=
  match pat, s with
  | EmptyString, _ => Some s
  | String a pat', String b s' =>
      if Ascii.eqb a b then strip_prefix pat' s' else None
  | String _ _, EmptyString => None
  end.

(** [s.replace(pat, rep)] for a string pattern: only the first occurrence
    of [pat] is replaced.  ([rep] is taken literally; the only replacement
    [transform] uses is the empty string.) *)
Fixpoint replace (pat rep s : string) : string :=
  match strip_prefix pat s with
  | Some rest => rep +:+ rest
  | None =>
      match s with
      | EmptyString => EmptyString
      | String c s' => String c (replace pat rep s')
      end
  end.

(** [s.includes(pat)]: [pat] occurs somewhere in [s]. *)
Fixpoint includes (pat s : string) : bool :=
  match strip_prefix pat s with
  | Some _ => true
  | None =>
      match s with
      | EmptyString => false
      | String _ s' => includes pat s'
      end
  end.

(** Truthiness of an optional string ([!node.tag] is its negation):
    [undefined] and the empty string are falsy. *)
Definition truthy (o : option string) : bool :=
  match o with
  | Some (String _ _) => true
  | _ => false
  end.

End JS.

(** ** Data model: the nodes of the [yaml] package

    Only the fields that [transform] reads or writes are kept.  [range] and
    [srcToken] are optional in the package's typings ([range?: Range | null],
    [srcToken?: Token]); a token is an opaque reference.  The value of a
    scalar is carried along as it is and only ever compared with the string
    [$type]; numbers are kept to integers. *)

Inductive Value : Type :=
| VString (s : string)
| VNumber (z : Z)
| VBoolean (b : bool)
| VNull.

Definition Range : Type := nat * nat * nat.
Definition Token : Type := nat.

Record NodeBase : Type := mkBase {
  tag : option string;
  range : option Range;
  srcToken : option Token
}.

Record Pair (N : Type) : Type := createPair { key : N; value : N }.
Arguments createPair {N} key value.
Arguments key {N} p.
Arguments value {N} p.

(** [Pair<Node, Node>], as in the signature of [createPairFrom].  The
    class [YAMLSet] extends [YAMLMap] ([isMap] holds of a set as well): it is
    the class of a map with the tag [!!set], and it has an [add] of its
    own.  The items of a sequence are nodes; the pairs that the tags
    [!!omap] and [!!pairs] put into a sequence are not part of this
    model. *)
Inductive Node : Type :=
| Scalar (b : NodeBase) (v : Value)
| YAMLMap (b : NodeBase) (items : list (Pair Node))
| YAMLSeq (b : NodeBase) (items : list Node)
| Alias (b : NodeBase) (source : string)
| YAMLSet (b : NodeBase) (items : list (Pair Node)).

Record Document : Type := mkDocument { contents : option Node }.

#[global] Instance Value_eq_dec : EqDecision Value.
Proof. solve_decision. Defined.
#[global] Instance NodeBase_eq_dec : EqDecision NodeBase.
Proof. solve_decision. Defined.

Definition base (n : Node) : NodeBase :=
  match n with
  | Scalar b _ | YAMLMap b _ | YAMLSeq b _ | Alias b _ | YAMLSet b _ => b
  end.

Definition with_base (f : NodeBase -> NodeBase) (n : Node) : Node :=
  match n with
  | Scalar b v => Scalar (f b) v
  | YAMLMap b items => YAMLMap (f b) items
  | YAMLSeq b items => YAMLSeq (f b) items
  | Alias b s => Alias (f b) s
  | YAMLSet b items => YAMLSet (f b) items
  end.

(** Field assignments [n.tag = t], [n.range = r], [n.srcToken = k]. *)
Definition set_tag (t : option string) : Node -> Node :=
  with_base (fun b => mkBase t (range b) (srcToken b)).
Definition set_range (r : option Range) : Node -> Node :=
  with_base (fun b => mkBase (tag b) r (srcToken b)).
Definition set_srcToken (k : option Token) : Node -> Node :=
  with_base (fun b => mkBase (tag b) (range b) k).

(** ** The parts of the [yaml] package that [transform] calls *)

Module Yaml.

Definition fresh : NodeBase := mkBase None None None.

(** [doc.createNode(s)] for a string [s]: a plain [Scalar] holding [s],
    with no tag and no position. *)
Definition createNode_string (s : string) : Node := Scalar fresh (VString s).

(** [doc.createNode({})]: an empty [YAMLMap] with no tag and no position. *)
Definition createNode_empty_object : Node := YAMLMap fresh [].

(** [node.clone()]: a copy of all own fields (the range array is copied,
    the source token is shared).  On values a copy is the value itself;
    the store model [Heap] below gives the copy its own identity. *)
Definition clone (n : Node) : Node := n.

(** [===] on scalar values. *)
Definition strict_eq (a b : Value) : bool := bool_decide (a = b).

(** [String(v)], used by the error message of [add]. *)
Definition toString (v : Value) : string :=
  match v with
  | VString s => s
  | VNumber z => pretty z
  | VBoolean true => "true"
  | VBoolean false => "false"
  | VNull => "null"
  end.

(** [findPair(items, key)] for a newly created [key] node: the first pair
    whose key is a scalar holding the same value as the scalar [key].
    (The identity tests [it.key === key] and [it.key === k] of the package
    cannot hold for a node that was just created.) *)
Definition findPair (items : list (Pair Node)) (k : Node) : option (Pair Node) :=
  match k with
  | Scalar _ kv =>
      List.find (fun it => match key it with
                           | Scalar _ v => strict_eq v kv
                           | _ => false
                           end) items
  | _ => None
  end.

Definition key_toString (k : Node) : string :=
  match k with
  | Scalar _ v => toString v
  | _ => "[object Object]"
  end.

(** [map.add(pair)] on the item list (no [overwrite] argument, no
    [sortMapEntries] in the schema): throws when the key is already
    present, else pushes the pair at the end of [items]. *)
Definition add_items (items : list (Pair Node)) (pair : Pair Node)
  : result (list (Pair Node)) :=
  match findPair items (key pair) with
  | Some _ => Throw ("Key " +:+ key_toString (key pair) +:+ " already set")
  | None => Ok (items ++ [pair])
  end.

(** [set.add(pair)] on the item list, the [add] of the class [YAMLSet]:
    a key that is already present is left alone, without an error; else
    the pair is pushed at the end of [items]. *)
Definition add_set_items (items : list (Pair Node)) (pair : Pair Node)
  : list (Pair Node) :=
  match findPair items (key pair) with
  | Some _ => items
  | None => items ++ [pair]
  end.

(** [node.add(pair)] for a node typed [YAMLMap]; the method is the one of
    the class of the node. *)
Definition add (node : Node) (pair : Pair Node) : result Node :=
  match node with
  | YAMLMap b items => items' ← add_items items pair; Ok (YAMLMap b items')
  | YAMLSet b items => Ok (YAMLSet b (add_set_items items pair))
  | _ => Throw "TypeError: the node is not a YAMLMap"
  end.

(** A visitor object with a [Map] and a [Scalar] callback (the two that
    [transform] supplies).  A callback receives the node and yields the
    node as its in-place updates leave it, together with its return value:
    [None] for [undefined], [Some n] for a replacement node. *)
Definition callback : Type := Node -> result (Node * option Node).

Record visitor : Type := mkVisitor { Map : callback; Scalar_ : callback }.

Definition callVisitor (v : visitor) (node : Node) : result (Node * option Node) :=
  match node with
  | YAMLMap _ _ | YAMLSet _ _ => Map v node
  | Scalar _ _ => Scalar_ v node
  | YAMLSeq _ _ | Alias _ _ => Ok (node, None)
  end.

(** [visit_(key, node, visitor, path)], with the recursion depth bounded by
    [fuel].  A replacement node returned by the callback takes the place of
    [node] in its parent and is itself visited again; otherwise the items
    of a collection are visited in order, and the key and then the value of
    a pair. *)
Fixpoint visit_ (fuel : nat) (v : visitor) (node : Node) {struct fuel} : result Node :=
  match fuel with
  | O => OutOfFuel
  | S fuel' =>
      r ← callVisitor v node;
      match r with
      | (_, Some ctrl) => visit_ fuel' v ctrl
      | (node', None) =>
          match node' with
          | YAMLMap b items =>
              items' ← forM (visit_pair fuel' v) items;
              Ok (YAMLMap b items')
          | YAMLSeq b items =>
              items' ← forM (visit_ fuel' v) items;
              Ok (YAMLSeq b items')
          | YAMLSet b items =>
              items' ← forM (visit_pair fuel' v) items;
              Ok (YAMLSet b items')
          | Scalar _ _ | Alias _ _ => Ok node'
          end
      end
  end
with visit_pair (fuel : nat) (v : visitor) (p : Pair Node) {struct fuel} : result (Pair Node) :=
  match fuel with
  | O => OutOfFuel
  | S fuel' =>
      k ← visit_ fuel' v (key p);
      x ← visit_ fuel' v (value p);
      Ok (createPair k x)
  end.

(** [visit(doc, visitor)]: visits [doc.contents] (which may be [null]). *)
Definition visit (fuel : nat) (doc : Document) (v : visitor) : result Document :=
  match contents doc with
  | None => Ok doc
  | Some n => n' ← visit_ fuel v n; Ok (mkDocument (Some n'))
  end.

End Yaml.

(** ** yamlParser07.ts *)

(** The [value: unknown] argument of [createPairFrom]: [transform] passes a
    string or a node, and [isNode(value)] tells them apart. *)
Inductive unknown : Type :=
| AString (s : string)
| ANode (n : Node).

(** The [doc] argument of the source is only the factory of the new nodes
    ([doc.createNode], [doc.createPair]); it is left implicit. *)
Definition createPairFrom (node : Node) (key : string) (value : unknown) : Pair Node :=
  let keyNode := Yaml.createNode_string key in
  let keyNode := set_range (range (base node)) keyNode in
  let keyNode := set_srcToken (srcToken (base node)) keyNode in
  match value with
  | AString s =>
      let valueNode := Yaml.createNode_string s in
      let valueNode := set_range (range (base node)) valueNode in
      let valueNode := set_srcToken (srcToken (base node)) valueNode in
      createPair keyNode valueNode
  | ANode n => createPair keyNode n
  end.

(** [customTags.map(split).map(...).reduce(...)]: the object used as a map
    from tag name to declared kind; a later declaration of a tag overrides an
    earlier one. *)
Definition tagMap (customTags : list string) : gmap string string :=
  foldl (fun p c => <[ c.1 := c.2 ]> p) ∅
    (map (fun p => (nth 0 p EmptyString,
                    if decide (1 < length p) then nth 1 p EmptyString else "scalar"))
       (map (JS.split " ") customTags)).

(** The tag name that a declaration string of [customTags] declares
    ([p[0]] in [transform]). *)
Definition declared_tag (declaration : string) : string :=
  nth 0 (JS.split " " declaration) EmptyString.

(** [node.tag] once it is known to be truthy. *)
Definition the_tag (node : Node) : string := default EmptyString (tag (base node)).

(** [node.tag.replace('!app:', '')] *)
Definition stripped (T : string) : string := JS.replace "!app:" EmptyString T.

(** The [Map] callback of the visitor. *)
Definition transform_Map (node : Node) : result (Node * option Node) :=
  if negb (JS.truthy (tag (base node))) then Ok (node, None)
  else
    let pair := createPairFrom node "$type" (AString (stripped (the_tag node))) in
    node' ← Yaml.add node pair;
    Ok (node', None).

(** The [Scalar] callback of the visitor. *)
Definition transform_Scalar (tagMap : gmap string string) (node : Node)
  : result (Node * option Node) :=
  if negb (JS.truthy (tag (base node))) then Ok (node, None)
  else
    let newNode := Yaml.createNode_empty_object in
    let newNode := set_range (range (base node)) newNode in
    let newNode := set_srcToken (srcToken (base node)) newNode in
    let typePair := createPairFrom node "$type" (AString (stripped (the_tag node))) in
    newNode ← Yaml.add newNode typePair;
    newNode ←
      (if bool_decide (tagMap !! the_tag node = Some "scalar") then
         let copied := Yaml.clone node in
         let copied := set_tag None copied in
         let p2 := createPairFrom node "value" (ANode copied) in
         Yaml.add newNode p2
       else Ok newNode);
    Ok (node, Some newNode).

Definition transform_visitor (customTags : list string) : Yaml.visitor :=
  Yaml.mkVisitor transform_Map (transform_Scalar (tagMap customTags)).

(** [transform] with the depth of the library's recursion bounded by [fuel]. *)
Definition transform_fuel (fuel : nat) (doc : Document) (customTags : list string)
  : result Document :=
  Yaml.visit fuel doc (transform_visitor customTags).

(** Nesting depth of a tree, and a recursion depth that suffices to visit it:
    two levels per collection (the collection and its pair), and four for a
    leaf (a tagged scalar, its replacement map, the pair and its scalars). *)
Fixpoint height (n : Node) : nat :=
  match n with
  | YAMLMap _ items | YAMLSet _ items =>
      S (list_max (map (fun p => Nat.max (height (key p)) (height (value p))) items))
  | YAMLSeq _ items => S (list_max (map height items))
  | Scalar _ _ | Alias _ _ => 0
  end.

Definition enough_fuel (n : Node) : nat := 2 * height n + 4.

Definition doc_fuel (doc : Document) : nat :=
  match contents doc with
  | Some n => enough_fuel n
  | None => 0
  end.

(** [transform(doc, customTags)] *)
Definition transform (doc : Document) (customTags : list string) : result Document :=
  transform_fuel (doc_fuel doc) doc customTags.

(** [LineCounter]: the offsets at which the lines of the text start. *)
Definition LineCounter : Type := list nat.

Record SingleYAMLDocument : Type := mkSingleYAMLDocument {
  lineCounter : LineCounter;
  internalDocument : Document
}.

Definition parsedDocToSingleYAMLDocument
    (parsedDoc : Document) (lineCounter : LineCounter) (customTags : list string)
  : result SingleYAMLDocument :=
  transformed ← transform parsedDoc customTags;
  Ok (mkSingleYAMLDocument lineCounter transformed).

(** *** Sample documents *)

Module Samples.

Definition at_ (t : option string) (a b : nat) (k : Token) : NodeBase :=
  mkBase t (Some (a, b, b)) (Some k).

Definition plain (s : string) (a b : nat) (k : Token) : Node :=
  Scalar (at_ None a b k) (VString s).

(** [!app:DataBlock\nabc: def\n] *)
Definition data_block : Document :=
  mkDocument (Some (YAMLMap (at_ (Some "!app:DataBlock") 15 24 1)
    [createPair (plain "abc" 15 18 2) (plain "def" 20 23 3)])).

(** [key: !Ref foo] *)
Definition ref_scalar : Document :=
  mkDocument (Some (YAMLMap (at_ None 0 13 1)
    [createPair (plain "key" 0 3 2) (Scalar (at_ (Some "!Ref") 5 13 3) (VString "foo"))])).

(** [a: b] *)
Definition plain_doc : Document :=
  mkDocument (Some (YAMLMap (at_ None 0 4 1)
    [createPair (plain "a" 0 1 2) (plain "b" 3 4 3)])).

(** [!app:DataBlock\n$type: x\n]: the map already has a key [$type]. *)
Definition typed_block : Document :=
  mkDocument (Some (YAMLMap (at_ (Some "!app:DataBlock") 15 23 1)
    [createPair (plain "$type" 15 20 2) (plain "x" 22 23 3)])).

(** [!app:Outer\nabc: !app:Inner def\n]: a tagged scalar inside a tagged map. *)
Definition nested : Document :=
  mkDocument (Some (YAMLMap (at_ (Some "!app:Outer") 11 30 1)
    [createPair (plain "abc" 11 14 2)
                (Scalar (at_ (Some "!app:Inner") 16 30 3) (VString "def"))])).

(** [!foo:Bar\nabc: def\n] *)
Definition foo_bar : Document :=
  mkDocument (Some (YAMLMap (at_ (Some "!foo:Bar") 9 17 1)
    [createPair (plain "abc" 9 12 2) (plain "def" 14 17 3)])).

(** A tagged scalar without a range (a node built by hand, not parsed). *)
Definition unpositioned : Document :=
  mkDocument (Some (Scalar (mkBase (Some "!Ref") None None) (VString "foo"))).

(** [!!set\n? $type\n? a\n]: a set that has the key [$type]. *)
Definition typed_set : Document :=
  mkDocument (Some (YAMLSet (at_ (Some "tag:yaml.org,2002:set") 6 17 1)
    [createPair (plain "$type" 8 13 2) (Scalar (at_ None 13 13 3) VNull);
     createPair (plain "a" 16 17 4) (Scalar (at_ None 17 17 5) VNull)])).

(** [!!set\n? a\n]: a set without the key [$type]. *)
Definition plain_set : Document :=
  mkDocument (Some (YAMLSet (at_ (Some "tag:yaml.org,2002:set") 6 9 1)
    [createPair (plain "a" 8 9 2) (Scalar (at_ None 9 9 3) VNull)])).

(** [key: !foo:Bar baz] *)
Definition foo_scalar : Document :=
  mkDocument (Some (YAMLMap (at_ None 0 17 1)
    [createPair (plain "key" 0 3 2)
                (Scalar (at_ (Some "!foo:Bar") 5 17 3) (VString "baz"))])).

(** [key: !app:Foo baz] *)
Definition app_scalar : Document :=
  mkDocument (Some (YAMLMap (at_ None 0 17 1)
    [createPair (plain "key" 0 3 2)
                (Scalar (at_ (Some "!app:Foo") 5 17 3) (VString "baz"))])).

End Samples.

(** ** Addressing nodes of a tree

    A path from the root: into the key or the value of the [i]-th pair of a
    map, or into the [i]-th item of a sequence. *)

Inductive step : Type :=
| InKey (i : nat)
| InValue (i : nat)
| InItem (i : nat).

Fixpoint node_at (path : list step) (n : Node) : option Node :=
  match path with
  | [] => Some n
  | InKey i :: path' =>
      match n with
      | YAMLMap _ items | YAMLSet _ items => p ← items !! i; node_at path' (key p)
      | _ => None
      end
  | InValue i :: path' =>
      match n with
      | YAMLMap _ items | YAMLSet _ items => p ← items !! i; node_at path' (value p)
      | _ => None
      end
  | InItem i :: path' =>
      match n with
      | YAMLSeq _ items => x ← items !! i; node_at path' x
      | _ => None
      end
  end.

Definition doc_at (path : list step) (doc : Document) : option Node :=
  n ← contents doc; node_at path n.

(** ** Predicates on trees *)

(** [every P n]: [P] holds of [n] and of every node below it. *)
Fixpoint every (P : Node -> bool) (n : Node) : bool :=
  P n &&
  match n with
  | YAMLMap _ items | YAMLSet _ items =>
      forallb (fun p => every P (key p) && every P (value p)) items
  | YAMLSeq _ items => forallb (every P) items
  | Scalar _ _ | Alias _ _ => true
  end.

Definition doc_every (P : Node -> bool) (doc : Document) : bool :=
  match contents doc with
  | Some n => every P n
  | None => true
  end.

(** The node carries no tag (its [tag] is falsy). *)
Definition no_tag (n : Node) : bool := negb (JS.truthy (tag (base n))).

(** The node has a source range. *)
Definition has_range (n : Node) : bool :=
  match range (base n) with Some _ => true | None => false end.

(** The node has a source-token reference. *)
Definition has_srcToken (n : Node) : bool :=
  match srcToken (base n) with Some _ => true | None => false end.

(** Range and source token of a node. *)
Definition position (n : Node) : option Range * option Token :=
  (range (base n), srcToken (base n)).

(** What the callbacks build, written out. *)

Definition at_position_of (b : NodeBase) : NodeBase :=
  mkBase None (range b) (srcToken b).

(** The pair [($type, stripped(T))] created from a node with base [b]. *)
Definition type_pair (b : NodeBase) (T : string) : Pair Node :=
  createPair (Scalar (at_position_of b) (VString "$type"))
             (Scalar (at_position_of b) (VString (stripped T))).

(** The pair [(value, copied)] created from the scalar [Scalar b v]. *)
Definition value_pair (b : NodeBase) (v : Value) : Pair Node :=
  createPair (Scalar (at_position_of b) (VString "value"))
             (Scalar (at_position_of b) v).

(** The map that replaces the tagged scalar [Scalar b v]. *)
Definition replacement (tm : gmap string string) (b : NodeBase) (v : Value) (T : string) : Node :=
  YAMLMap (at_position_of b)
    (type_pair b T :: if bool_decide (tm !! T = Some "scalar") then [value_pair b v] else []).

(** A pair whose key is the string scalar [$type]. *)
Definition is_type_key (p : Pair Node) : bool :=
  match key p with
  | Scalar _ v => Yaml.strict_eq v (VString "$type")
  | _ => false
  end.

(** The nodes that the callbacks of [transform] give a discriminator: a
    scalar, a map of the class [YAMLMap], and a set that has no pair with
    the key [$type] yet. *)
Definition gets_discriminator (n : Node) : bool :=
  match n with
  | Scalar _ _ | YAMLMap _ _ => true
  | YAMLSet _ items => forallb (fun p => negb (is_type_key p)) items
  | YAMLSeq _ _ | Alias _ _ => false
  end.

(** A map of the class [YAMLMap] that carries a tag has no pair with the key
    [$type] (the condition under which [add] pushes the discriminator pair
    instead of throwing; the [add] of a [YAMLSet] never throws). *)
Definition no_collision (n : Node) : bool :=
  match n with
  | YAMLMap b items =>
      negb (JS.truthy (tag b)) || forallb (fun p => negb (is_type_key p)) items
  | Scalar _ _ | YAMLSeq _ _ | Alias _ _ | YAMLSet _ _ => true
  end.

(** The visit of [transform] started at a node [n] (what [visit_] does when
    the traversal reaches [n]). *)
Definition transform_node (customTags : list string) (n : Node) : result Node :=
  Yaml.visit_ (enough_fuel n) (transform_visitor customTags) n.

(** ** The [Scalar] callback on a store of objects

    [transform] works on mutable objects: [clone] makes a second object and
    [copied.tag = undefined] writes to it.  To speak about the identity of
    the original and of the copy, the callback is also given over an explicit
    store: an array of objects in which a reference is an index and
    allocation pushes a new object. *)

Module Heap.

Abbreviation loc := nat.

Inductive object : Type :=
| OScalar (b : NodeBase) (v : Value)
| OMap (b : NodeBase) (items : list loc)
| OSeq (b : NodeBase) (items : list loc)
| OAlias (b : NodeBase) (source : string)
| OPair (k v : loc).

Abbreviation heap := (list object).

(** A computation on the store. *)
Definition op (A : Type) : Type := heap -> result (A * heap).

#[global] Instance op_ret : MRet op := fun A a h => Ok (a, h).
#[global] Instance op_bind : MBind op := fun A B f m h =>
  match m h with
  | Ok (a, h') => f a h'
  | Throw msg => Throw msg
  | OutOfFuel => OutOfFuel
  end.

Definition alloc (o : object) : op loc := fun h => Ok (length h, h ++ [o]).

Definition read (l : loc) : op object := fun h =>
  match h !! l with
  | Some o => Ok (o, h)
  | None => Throw "TypeError: dangling reference"
  end.

(** A field write; it is only used on a reference that was just read. *)
Definition write (l : loc) (o : object) : op unit := fun h => Ok (tt, <[l := o]> h).

Definition throw {A} (msg : string) : op A := fun _ => Throw msg.

Definition obj_base (o : object) : NodeBase :=
  match o with
  | OScalar b _ | OMap b _ | OSeq b _ | OAlias b _ => b
  | OPair _ _ => Yaml.fresh
  end.

Definition obj_with_base (f : NodeBase -> NodeBase) (o : object) : object :=
  match o with
  | OScalar b v => OScalar (f b) v
  | OMap b items => OMap (f b) items
  | OSeq b items => OSeq (f b) items
  | OAlias b s => OAlias (f b) s
  | OPair k v => OPair k v
  end.

(** Field reads [n.tag], [n.range], [n.srcToken] and field writes. *)
Definition get_base (l : loc) : op NodeBase := o ← read l; mret (obj_base o).
Definition get_tag (l : loc) : op (option string) := b ← get_base l; mret (tag b).
Definition get_range (l : loc) : op (option Range) := b ← get_base l; mret (range b).
Definition get_srcToken (l : loc) : op (option Token) := b ← get_base l; mret (srcToken b).
Definition set_tag (l : loc) (t : option string) : op unit :=
  o ← read l; write l (obj_with_base (fun b => mkBase t (range b) (srcToken b)) o).
Definition set_range (l : loc) (r : option Range) : op unit :=
  o ← read l; write l (obj_with_base (fun b => mkBase (tag b) r (srcToken b)) o).
Definition set_srcToken (l : loc) (k : option Token) : op unit :=
  o ← read l; write l (obj_with_base (fun b => mkBase (tag b) (range b) k) o).

Definition createNode_string (s : string) : op loc := alloc (OScalar Yaml.fresh (VString s)).
Definition createNode_empty_object : op loc := alloc (OMap Yaml.fresh []).
Definition createPair (k v : loc) : op loc := alloc (OPair k v).

(** [node.clone()]: a new object with the same fields. *)
Definition clone (l : loc) : op loc := o ← read l ; alloc o.

(** [findPair(items, key)]: [it.key === key], or both keys are scalars
    holding the same value. *)
Definition findPair (h : heap) (items : list loc) (k : loc) : option loc :=
  List.find (fun it =>
    match h !! it with
    | Some (OPair ik _) =>
        bool_decide (ik = k) ||
        match h !! ik, h !! k with
        | Some (OScalar _ v), Some (OScalar _ kv) => Yaml.strict_eq v kv
        | _, _ => false
        end
    | _ => false
    end) items.

Definition key_toString (h : heap) (k : loc) : string :=
  match h !! k with
  | Some (OScalar _ v) => Yaml.toString v
  | _ => "[object Object]"
  end.

(** [map.add(pair)] *)
Definition add (m pair : loc) : op unit :=
  o ← read m;
  p ← read pair;
  match o, p with
  | OMap b items, OPair k _ =>
      fun h =>
        match findPair h items k with
        | Some _ => Throw ("Key " +:+ key_toString h k +:+ " already set")
        | None => write m (OMap b (items ++ [pair])) h
        end
  | _, _ => throw "TypeError: the node is not a YAMLMap"
  end.

(** The [value: unknown] argument of [createPairFrom]. *)
Inductive unknown : Type :=
| AString (s : string)
| ANode (l : loc).

Definition createPairFrom (node : loc) (key : string) (value : unknown) : op loc :=
  keyNode ← createNode_string key;
  r ← get_range node; set_range keyNode r;;
  k ← get_srcToken node; set_srcToken keyNode k;;
  match value with
  | AString s =>
      valueNode ← createNode_string s;
      r ← get_range node; set_range valueNode r;;
      k ← get_srcToken node; set_srcToken valueNode k;;
      createPair keyNode valueNode
  | ANode v => createPair keyNode v
  end.

(** The [Scalar] callback of the visitor; it returns [undefined] or the
    reference of the new map. *)
Definition transform_Scalar (tagMap : gmap string string) (node : loc) : op (option loc) :=
  t ← get_tag node;
  if negb (JS.truthy t) then mret None
  else
    newNode ← createNode_empty_object;
    r ← get_range node; set_range newNode r;;
    k ← get_srcToken node; set_srcToken newNode k;;
    t ← get_tag node;
    typePair ← createPairFrom node "$type" (AString (stripped (default EmptyString t)));
    add newNode typePair;;
    t ← get_tag node;
    (if bool_decide (tagMap !! default EmptyString t = Some "scalar") then
       copied ← clone node;
       set_tag copied None;;
       p2 ← createPairFrom node "value" (ANode copied);
       add newNode p2
     else mret tt);;
    mret (Some newNode).

(** Reading a tree back from the store, down to a depth of [fuel]. *)
Fixpoint reify (fuel : nat) (h : heap) (l : loc) {struct fuel} : option Node :=
  match fuel with
  | O => None
  | S fuel' =>
      match h !! l with
      | Some (OScalar b v) => Some (Scalar b v)
      | Some (OMap b items) => YAMLMap b <$> mapM (reify_pair fuel' h) items
      | Some (OSeq b items) => YAMLSeq b <$> mapM (reify fuel' h) items
      | Some (OAlias b s) => Some (Alias b s)
      | Some (OPair _ _) | None => None
      end
  end
with reify_pair (fuel : nat) (h : heap) (l : loc) {struct fuel} : option (Pair Node) :=
  match fuel with
  | O => None
  | S fuel' =>
      match h !! l with
      | Some (OPair k v) =>
          k' ← reify fuel' h k; v' ← reify fuel' h v; Some {| key := k'; value := v' |}
      | _ => None
      end
  end.

End Heap.

(** ** Quick-fix value inferencer *)

Module QuickFix.

Record Position : Type := mkPosition { line : nat; character : nat }.

(** [Range.create(startLine, startCharacter, endLine, endCharacter)] *)
Record LspRange : Type := mkRange { start : Position; end_ : Position }.

Definition Range_create (l1 c1 l2 c2 : nat) : LspRange :=
  mkRange (mkPosition l1 c1) (mkPosition l2 c2).

(** [TextEdit.replace(range, newText)] *)
Record TextEdit : Type := replace { edit_range : LspRange; newText : string }.

(** [{ title, edit: { changes: { uri: edits } } }] *)
Record CodeAction : Type := mkAction {
  title : string;
  changes : gmap string (list TextEdit)
}.

(** Modelled from the spec: the recognized spellings, a configuration owned
    by the schema layer and passed to the inferencer (the code-action
    provider is not part of the sources at hand). *)
Record Forms : Type := mkForms { truthy : list string; falsy : list string }.

Definition dquote : string := String (ascii_of_nat 34) EmptyString.

(** Modelled from the spec: the spellings that section 4.3 lists, the
    words [true] and [false] in double quotes, in single quotes and
    unquoted (the code-action provider is not part of the sources at
    hand). *)
Definition default_forms : Forms :=
  mkForms [dquote +:+ "true" +:+ dquote; "'true'"; "true"]
          [dquote +:+ "false" +:+ dquote; "'false'"; "false"].

Definition lower_ascii (c : ascii) : ascii :=
  let n := nat_of_ascii c in
  if Nat.leb 65 n && Nat.leb n 90 then ascii_of_nat (n + 32) else c.

Fixpoint toLowerCase (s : string) : string :=
  match s with
  | EmptyString => EmptyString
  | String c s' => String (lower_ascii c) (toLowerCase s')
  end.

(** Modelled from the spec: the literal is one of the given spellings,
    compared without regard to case (the code-action provider is not part
    of the sources at hand). *)
Definition matches (forms : list string) (raw : string) : bool :=
  existsb (fun f => String.eqb (toLowerCase f) (toLowerCase raw)) forms.

(** Modelled from the spec: the action [Convert to boolean] with its one
    edit, in the shape of section 6 (the code-action provider is not part
    of the sources at hand). *)
Definition convert (uri : string) (range : LspRange) (text : string) : CodeAction :=
  mkAction "Convert to boolean" {[ uri := [replace range text] ]}.

(** Modelled from the spec: the quick-fix value inferencer (the code-action
    provider behind [YamlCodeActions.getCodeAction] is not part of the
    sources at hand; only its test is).  Following section 4.3: the input
    is the raw text of the literal with its quotes and its range; the
    truthy forms trigger the replacement by [true] and the falsy forms the
    replacement by [false]; a literal that triggers exactly one of the two
    yields one action over exactly the given range; a literal that triggers
    none or both yields no action. *)
Definition inferBoolean (forms : Forms) (uri raw : string) (range : LspRange)
  : list CodeAction :=
  match matches (truthy forms) raw, matches (falsy forms) raw with
  | true, false => [convert uri range "true"]
  | false, true => [convert uri range "false"]
  | _, _ => []
  end.

(** [document.getText(range)] for a range within the first line. *)
Definition getText (content : string) (range : LspRange) : string :=
  String.substring (character (start range))
                   (character (end_ range) - character (start range)) content.

(** The document of the test: [analytics: "false"]. *)
Definition analytics_false : string := "analytics: " +:+ dquote +:+ "false" +:+ dquote.

End QuickFix.

(** ** Further predicates on trees *)

(** The kind that a declaration string of [customTags] declares
    ([p.length > 1 ? p[1] : 'scalar'] in [transform]). *)
Definition declared_kind (declaration : string) : string :=
  if decide (1 < length (JS.split " " declaration))
  then nth 1 (JS.split " " declaration) EmptyString
  else "scalar".

(** Neither callback of the visitor acts on the node: it is no map and no
    scalar, or it carries no tag. *)
Definition unmarked (n : Node) : bool :=
  match n with
  | Scalar b _ | YAMLMap b _ | YAMLSet b _ => negb (JS.truthy (tag b))
  | YAMLSeq _ _ | Alias _ _ => true
  end.

(** The node is no map that carries a tag. *)
Definition map_untagged (n : Node) : bool :=
  match n with
  | YAMLMap b _ | YAMLSet b _ => negb (JS.truthy (tag b))
  | Scalar _ _ | YAMLSeq _ _ | Alias _ _ => true
  end.

(** A pair whose key [$type], if it has this key, is a scalar without a
    tag (the visit leaves such a key as it is). *)
Definition type_key_untagged (p : Pair Node) : bool :=
  negb (is_type_key p) || no_tag (key p).

(** The node is no map of the class [YAMLMap] that carries a tag, and no
    set that carries a tag and has a tagged scalar as its key [$type]. *)
Definition repeatable (n : Node) : bool :=
  match n with
  | YAMLMap b _ => negb (JS.truthy (tag b))
  | YAMLSet b items => negb (JS.truthy (tag b)) || forallb type_key_untagged items
  | Scalar _ _ | YAMLSeq _ _ | Alias _ _ => true
  end.

(** A node on which a further visit changes nothing: a scalar or a map of
    the class [YAMLMap] without a tag, a set without a tag or with a pair
    whose key is [$type]. *)
Definition settled (n : Node) : bool :=
  match n with
  | Scalar b _ | YAMLMap b _ => negb (JS.truthy (tag b))
  | YAMLSet b items => negb (JS.truthy (tag b)) || existsb is_type_key items
  | YAMLSeq _ _ | Alias _ _ => true
  end.

(** The pair is the discriminator pair of a map with base [b]: two string
    scalars at the position of [b], the key [$type] and the stripped tag. *)
Definition is_discriminator_of (b : NodeBase) (p : Pair Node) : bool :=
  match key p, value p with
  | Scalar kb (VString k), Scalar vb (VString v) =>
      bool_decide (kb = at_position_of b) && bool_decide (k = "$type") &&
      bool_decide (vb = at_position_of b) &&
      bool_decide (v = stripped (default EmptyString (tag b)))
  | _, _ => false
  end.

(** The shape of a node that [transform] has been over: a scalar has no
    tag, and a map of the class [YAMLMap] that has a tag has its
    discriminator pair as last pair. *)
Definition normalized (n : Node) : bool :=
  match n with
  | Scalar b _ => negb (JS.truthy (tag b))
  | YAMLMap b items =>
      negb (JS.truthy (tag b)) ||
      match last items with
      | Some p => is_discriminator_of b p
      | None => false
      end
  | YAMLSeq _ _ | Alias _ _ | YAMLSet _ _ => true
  end.

(** ** The end of [parse]: from the composed documents to the result *)





(** ** The [Map] callback on the store *)

Module HeapMap.
Import Heap.

(** The [Map] callback of the visitor; it returns [undefined]. *)
Definition transform_Map (node : loc) : op (option loc) :=
  t ← get_tag node;
  if negb (JS.truthy t) then mret None
  else
    t ← get_tag node;
    pair ← createPairFrom node "$type" (AString (stripped (default EmptyString t)));
    add node pair;;
    mret None.

(** The pair at [it] has a key that is the string scalar [$type]. *)
Definition type_key (h : heap) (it : loc) : bool :=
  match h !! it with
  | Some (OPair ik _) =>
      match h !! ik with
      | Some (OScalar _ v) => Yaml.strict_eq v (VString "$type")
      | _ => false
      end
  | _ => false
  end.

(** The reference [it] leads to a pair whose key is an object of the
    store. *)
Definition pair_in (h : heap) (it : loc) : bool :=
  match h !! it with
  | Some (OPair ik _) => bool_decide (is_Some (h !! ik))
  | _ => false
  end.

End HeapMap.

(** *** More sample documents *)

Module MoreSamples.

(** [!app:List\n- !app:Item a\n- b\n]: a tagged sequence with a tagged
    scalar in it. *)
Definition tagged_seq : Document :=
  mkDocument (Some (YAMLSeq (Samples.at_ (Some "!app:List") 10 30 1)
    [Scalar (Samples.at_ (Some "!app:Item") 12 23 2) (VString "a");
     Samples.plain "b" 26 27 3])).

(** [x: !Ref foo\ny: {a: b}\n]: a tagged scalar beside a plain map. *)
Definition mixed : Document :=
  mkDocument (Some (YAMLMap (Samples.at_ None 0 22 1)
    [createPair (Samples.plain "x" 0 1 2)
                (Scalar (Samples.at_ (Some "!Ref") 3 11 3) (VString "foo"));
     createPair (Samples.plain "y" 12 13 4)
                (YAMLMap (Samples.at_ None 15 21 5)
                   [createPair (Samples.plain "a" 16 17 6) (Samples.plain "b" 19 20 7)])])).

End MoreSamples.
(** * Properties *)

(** ** String primitives *)

Example split_decl : JS.split " " "!Ref scalar" = ["!Ref"; "scalar"].
Proof. reflexivity. Qed.
Example split_bare : JS.split " " "!Ref" = ["!Ref"].
Proof. reflexivity. Qed.
Example split_trailing : JS.split " " "!Ref " = ["!Ref"; EmptyString].
Proof. reflexivity. Qed.
Example replace_app : JS.replace "!app:" EmptyString "!app:DataBlock" = "DataBlock".
Proof. reflexivity. Qed.
Example replace_other : JS.replace "!app:" EmptyString "!foo:Bar" = "!foo:Bar".
Proof. reflexivity. Qed.
Example replace_inner : JS.replace "!app:" EmptyString "x!app:y!app:z" = "xy!app:z".
Proof. reflexivity. Qed.


(** ** Induction over trees *)

Section Node_induction.
Variable P : Node -> Prop.
Hypothesis HScalar : forall b v, P (Scalar b v).
Hypothesis HMap : forall b items,
  Forall (fun p => P (key p) /\ P (value p)) items -> P (YAMLMap b items).
Hypothesis HSeq : forall b items, Forall P items -> P (YAMLSeq b items).
Hypothesis HAlias : forall b s, P (Alias b s).
Hypothesis HSet : forall b items,
  Forall (fun p => P (key p) /\ P (value p)) items -> P (YAMLSet b items).

Fixpoint Node_tree_ind (n : Node) : P n :=
  match n with
  | Scalar b v => HScalar b v
  | YAMLMap b items =>
      HMap b items
        ((fix go (l : list (Pair Node)) : Forall (fun p => P (key p) /\ P (value p)) l :=
            match l with
            | [] => List.Forall_nil _
            | p :: l' =>
                List.Forall_cons _ p l'
                  (conj (Node_tree_ind (key p)) (Node_tree_ind (value p))) (go l')
            end) items)
  | YAMLSeq b items =>
      HSeq b items
        ((fix go (l : list Node) : Forall P l :=
            match l with
            | [] => List.Forall_nil _
            | x :: l' => List.Forall_cons _ x l' (Node_tree_ind x) (go l')
            end) items)
  | Alias b s => HAlias b s
  | YAMLSet b items =>
      HSet b items
        ((fix go (l : list (Pair Node)) : Forall (fun p => P (key p) /\ P (value p)) l :=
            match l with
            | [] => List.Forall_nil _
            | p :: l' =>
                List.Forall_cons _ p l'
                  (conj (Node_tree_ind (key p)) (Node_tree_ind (value p))) (go l')
            end) items)
  end.
End Node_induction.

(** ** Loops *)

Lemma forM_Ok {A B} (f : A -> result B) l l' :
  forM f l = Ok l' <-> Forall2 (fun x y => f x = Ok y) l l'.
Proof.
  revert l'. induction l as [|x l IH]; intros l'; simpl.
  - split.
    + intros [= <-]. constructor.
    + intros H. inversion H. reflexivity.
  - split.
    + destruct (f x) as [y| |] eqn:Hx; simpl; try discriminate.
      destruct (forM f l) as [ys| |] eqn:Hl; simpl; try discriminate.
      intros [= <-]. constructor; [assumption | by apply IH].
    + intros H. inversion H as [|? y ? ys Hy Hys]; subst.
      rewrite Hy. simpl. apply IH in Hys. rewrite Hys. reflexivity.
Qed.

Lemma forM_app {A B} (f : A -> result B) l1 l2 :
  forM f (l1 ++ l2) = (a ← forM f l1; b ← forM f l2; Ok (a ++ b)).
Proof.
  induction l1 as [|x l1 IH]; simpl.
  - destruct (forM f l2); reflexivity.
  - destruct (f x) as [y| |]; simpl; try reflexivity.
    rewrite IH. destruct (forM f l1) as [ys| |]; simpl; try reflexivity.
    destruct (forM f l2); reflexivity.
Qed.

Lemma forM_id {A} (f : A -> result A) l :
  Forall (fun x => f x = Ok x) l -> forM f l = Ok l.
Proof.
  intros H. apply forM_Ok. induction H; constructor; auto.
Qed.

(** A loop whose outcome is settled stays the same under any body that
    agrees with the first wherever that one is settled. *)
Lemma forM_settled {A B} (f g : A -> result B) l r :
  Forall (fun x => f x <> OutOfFuel -> g x = f x) l ->
  forM f l = r -> r <> OutOfFuel -> forM g l = r.
Proof.
  intros H. revert r. induction H as [|x l Hx Hl IH]; intros r; simpl.
  - auto.
  - destruct (f x) as [y| |] eqn:Hfx; simpl.
    + rewrite Hx by discriminate. simpl.
      destruct (forM f l) as [ys| |] eqn:Hfl; simpl; intros <- Hr.
      * rewrite (IH (Ok ys)) by (auto; discriminate). reflexivity.
      * rewrite (IH (Throw msg)) by (auto; discriminate). reflexivity.
      * congruence.
    + rewrite Hx by discriminate. simpl. auto.
    + intros <- Hr. congruence.
Qed.

Lemma forM_not_OutOfFuel {A B} (f : A -> result B) l :
  Forall (fun x => f x <> OutOfFuel) l -> forM f l <> OutOfFuel.
Proof.
  induction 1 as [|x l Hx Hl IH]; simpl; [discriminate|].
  destruct (f x); simpl; try congruence.
  destruct (forM f l); simpl; congruence.
Qed.

Lemma forM_Throw {A B} (f : A -> result B) l msg :
  forM f l = Throw msg -> exists x, In x l /\ f x = Throw msg.
Proof.
  induction l as [|x l IH]; simpl; [discriminate|].
  destruct (f x) as [y| |] eqn:Hx; simpl.
  - destruct (forM f l) as [ys| |]; simpl; try discriminate.
    intros [= <-]. destruct IH as (x' & ? & ?); eauto.
  - intros [= <-]. eauto.
  - discriminate.
Qed.

(** ** The library's traversal: more fuel never changes a settled outcome *)

Section Visit_fuel.
Variable v : Yaml.visitor.

Lemma visit_settled_both fuel :
  (forall n, Yaml.visit_ fuel v n <> OutOfFuel ->
     forall fuel', fuel <= fuel' -> Yaml.visit_ fuel' v n = Yaml.visit_ fuel v n) /\
  (forall p, Yaml.visit_pair fuel v p <> OutOfFuel ->
     forall fuel', fuel <= fuel' -> Yaml.visit_pair fuel' v p = Yaml.visit_pair fuel v p).
Proof.
  induction fuel as [|fuel [IHn IHp]].
  - split; intros ? H; simpl in H; congruence.
  - split.
    + intros n H [|fuel'] Hle; [lia|]. assert (fuel <= fuel') as Hle' by lia.
      simpl in *. destruct (Yaml.callVisitor v n) as [[n' [ctrl|]]| |]; simpl in *; auto.
      destruct n' as [| b items | b items | | b items]; auto.
      * rewrite (forM_settled (Yaml.visit_pair fuel v) (Yaml.visit_pair fuel' v)
                   items (forM (Yaml.visit_pair fuel v) items)); auto.
        -- apply Forall_forall. intros p _ Hp. auto.
        -- intros E. rewrite E in H. simpl in H. congruence.
      * rewrite (forM_settled (Yaml.visit_ fuel v) (Yaml.visit_ fuel' v)
                   items (forM (Yaml.visit_ fuel v) items)); auto.
        -- apply Forall_forall. intros p _ Hp. auto.
        -- intros E. rewrite E in H. simpl in H. congruence.
      * rewrite (forM_settled (Yaml.visit_pair fuel v) (Yaml.visit_pair fuel' v)
                   items (forM (Yaml.visit_pair fuel v) items)); auto.
        -- apply Forall_forall. intros p _ Hp. auto.
        -- intros E. rewrite E in H. simpl in H. congruence.
    + intros p H [|fuel'] Hle; [lia|]. assert (fuel <= fuel') as Hle' by lia.
      simpl in *.
      destruct (Yaml.visit_ fuel v (key p)) as [k| |] eqn:Hk; simpl in *; try congruence.
      * rewrite (IHn (key p)) by (auto; congruence). rewrite Hk. simpl.
        destruct (Yaml.visit_ fuel v (value p)) as [x| |] eqn:Hx; simpl in *; try congruence.
        -- rewrite (IHn (value p)) by (auto; congruence). rewrite Hx. reflexivity.
        -- rewrite (IHn (value p)) by (auto; congruence). rewrite Hx. reflexivity.
      * rewrite (IHn (key p)) by (auto; congruence). rewrite Hk. reflexivity.
Qed.

Lemma visit_settled fuel fuel' n :
  Yaml.visit_ fuel v n <> OutOfFuel -> fuel <= fuel' ->
  Yaml.visit_ fuel' v n = Yaml.visit_ fuel v n.
Proof. intros H Hle. by apply (proj1 (visit_settled_both fuel)). Qed.

Lemma visit_pair_settled fuel fuel' p :
  Yaml.visit_pair fuel v p <> OutOfFuel -> fuel <= fuel' ->
  Yaml.visit_pair fuel' v p = Yaml.visit_pair fuel v p.
Proof. intros H Hle. by apply (proj2 (visit_settled_both fuel)). Qed.

Lemma visit_Ok_mono fuel fuel' n n' :
  Yaml.visit_ fuel v n = Ok n' -> fuel <= fuel' -> Yaml.visit_ fuel' v n = Ok n'.
Proof. intros H Hle. rewrite <- H. apply visit_settled; [congruence | done]. Qed.

End Visit_fuel.

(** ** The callbacks of [transform] *)

Lemma truthy_Some T : T <> EmptyString -> JS.truthy (Some T) = true.
Proof. destruct T; [congruence | reflexivity]. Qed.

Lemma truthy_inv o : JS.truthy o = true -> exists T, o = Some T /\ T <> EmptyString.
Proof. destruct o as [[|c s]|]; simpl; try discriminate. intros _. eexists; split; [reflexivity | discriminate]. Qed.

Lemma createPairFrom_string node k s :
  createPairFrom node k (AString s) =
  createPair (Scalar (at_position_of (base node)) (VString k))
             (Scalar (at_position_of (base node)) (VString s)).
Proof. reflexivity. Qed.

Lemma createPairFrom_node node k n :
  createPairFrom node k (ANode n) =
  createPair (Scalar (at_position_of (base node)) (VString k)) n.
Proof. reflexivity. Qed.

Lemma transform_Map_untagged b items :
  JS.truthy (tag b) = false ->
  transform_Map (YAMLMap b items) = Ok (YAMLMap b items, None).
Proof. intros H. unfold transform_Map. simpl. rewrite H. reflexivity. Qed.

Lemma findPair_type_key items b :
  Yaml.findPair items (Scalar b (VString "$type")) = List.find is_type_key items.
Proof. reflexivity. Qed.

Lemma find_none_iff {A} (f : A -> bool) l :
  List.find f l = None <-> forallb (fun x => negb (f x)) l = true.
Proof.
  induction l as [|x l IH]; simpl; [tauto|].
  destruct (f x); simpl; [split; discriminate | exact IH].
Qed.

(** The [Map] callback on a tagged map: it throws when a pair already has the
    key [$type], and otherwise pushes the discriminator pair. *)
Lemma transform_Map_tagged b items T :
  tag b = Some T -> T <> EmptyString ->
  transform_Map (YAMLMap b items) =
  if forallb (fun p => negb (is_type_key p)) items
  then Ok (YAMLMap b (items ++ [type_pair b T]), None)
  else Throw "Key $type already set".
Proof.
  intros Ht Hne. unfold transform_Map. simpl. rewrite Ht, (truthy_Some T Hne). simpl.
  unfold Yaml.add_items, the_tag. simpl. rewrite Ht. simpl.
  fold (is_type_key). change (List.find _ items) with (List.find is_type_key items).
  destruct (List.find is_type_key items) eqn:Hf.
  - destruct (forallb _ items) eqn:Hall; [|reflexivity].
    apply find_none_iff in Hall. congruence.
  - apply find_none_iff in Hf. rewrite Hf. reflexivity.
Qed.

Lemma transform_Map_set_untagged b items :
  JS.truthy (tag b) = false ->
  transform_Map (YAMLSet b items) = Ok (YAMLSet b items, None).
Proof. intros H. unfold transform_Map. simpl. rewrite H. reflexivity. Qed.

(** The [Map] callback on a tagged set: it never throws; it pushes the
    discriminator pair unless a pair already has the key [$type]. *)
Lemma transform_Map_set_tagged b items T :
  tag b = Some T -> T <> EmptyString ->
  transform_Map (YAMLSet b items) =
  Ok (YAMLSet b (items ++ if forallb (fun p => negb (is_type_key p)) items
                          then [type_pair b T] else []), None).
Proof.
  intros Ht Hne. unfold transform_Map. simpl. rewrite Ht, (truthy_Some T Hne). simpl.
  unfold Yaml.add_set_items, the_tag. simpl. rewrite Ht. simpl.
  change (List.find _ items) with (List.find is_type_key items).
  destruct (List.find is_type_key items) eqn:Hf.
  - destruct (forallb _ items) eqn:Hall.
    + apply find_none_iff in Hall. congruence.
    + by rewrite app_nil_r.
  - apply find_none_iff in Hf. rewrite Hf. reflexivity.
Qed.

Lemma transform_Scalar_untagged tm b v :
  JS.truthy (tag b) = false ->
  transform_Scalar tm (Scalar b v) = Ok (Scalar b v, None).
Proof. intros H. unfold transform_Scalar. simpl. rewrite H. reflexivity. Qed.

(** The [Scalar] callback on a tagged scalar never throws and returns the
    replacement map. *)
Lemma transform_Scalar_tagged tm b v T :
  tag b = Some T -> T <> EmptyString ->
  transform_Scalar tm (Scalar b v) = Ok (Scalar b v, Some (replacement tm b v T)).
Proof.
  intros Ht Hne. unfold transform_Scalar. simpl. rewrite Ht, (truthy_Some T Hne). simpl.
  unfold the_tag. simpl. rewrite Ht. simpl.
  unfold replacement. destruct (bool_decide (tm !! T = Some "scalar")); reflexivity.
Qed.

(** ** Visiting with the visitor of [transform] *)

Lemma visit_S fuel v node :
  Yaml.visit_ (S fuel) v node =
  (r ← Yaml.callVisitor v node;
   match r with
   | (_, Some ctrl) => Yaml.visit_ fuel v ctrl
   | (node', None) =>
       match node' with
       | YAMLMap b items =>
           items' ← forM (Yaml.visit_pair fuel v) items; Ok (YAMLMap b items')
       | YAMLSeq b items =>
           items' ← forM (Yaml.visit_ fuel v) items; Ok (YAMLSeq b items')
       | YAMLSet b items =>
           items' ← forM (Yaml.visit_pair fuel v) items; Ok (YAMLSet b items')
       | Scalar _ _ | Alias _ _ => Ok node'
       end
   end).
Proof. reflexivity. Qed.

Lemma visit_pair_S fuel v p :
  Yaml.visit_pair (S fuel) v p =
  (k ← Yaml.visit_ fuel v (key p); x ← Yaml.visit_ fuel v (value p); Ok (createPair k x)).
Proof. reflexivity. Qed.

Section Visit_transform.
Variable customTags : list string.
Local Abbreviation V := (transform_visitor customTags).
Local Abbreviation tm := (tagMap customTags).

Lemma visit_untagged_scalar fuel b v :
  JS.truthy (tag b) = false ->
  Yaml.visit_ (S fuel) V (Scalar b v) = Ok (Scalar b v).
Proof.
  intros H. simpl. rewrite transform_Scalar_untagged by done. reflexivity.
Qed.

Lemma visit_type_pair fuel b T :
  Yaml.visit_pair (S (S fuel)) V (type_pair b T) = Ok (type_pair b T).
Proof. reflexivity. Qed.

Lemma visit_value_pair fuel b v :
  Yaml.visit_pair (S (S fuel)) V (value_pair b v) = Ok (value_pair b v).
Proof. reflexivity. Qed.

(** Visiting the replacement map again changes nothing. *)
Lemma visit_replacement fuel b v T :
  Yaml.visit_ (S (S (S fuel))) V (replacement tm b v T) = Ok (replacement tm b v T).
Proof.
  unfold replacement. destruct (bool_decide (tm !! T = Some "scalar")); reflexivity.
Qed.

Lemma visit_tagged_scalar fuel b v T :
  tag b = Some T -> T <> EmptyString ->
  Yaml.visit_ (S (S (S (S fuel)))) V (Scalar b v) = Ok (replacement tm b v T).
Proof.
  intros Ht Hne.
  rewrite visit_S. change (Yaml.callVisitor V (Scalar b v)) with (transform_Scalar tm (Scalar b v)).
  rewrite (transform_Scalar_tagged tm b v T Ht Hne).
  apply visit_replacement.
Qed.

End Visit_transform.

Section Visit_transform_tree.
Variable customTags : list string.
Local Abbreviation V := (transform_visitor customTags).
Local Abbreviation tm := (tagMap customTags).

Lemma visit_untagged_map fuel b items :
  JS.truthy (tag b) = false ->
  Yaml.visit_ (S fuel) V (YAMLMap b items) =
  (items' ← forM (Yaml.visit_pair fuel V) items; Ok (YAMLMap b items')).
Proof.
  intros H. rewrite visit_S.
  change (Yaml.callVisitor V (YAMLMap b items)) with (transform_Map (YAMLMap b items)).
  rewrite transform_Map_untagged by done. reflexivity.
Qed.

Lemma visit_tagged_map fuel b items T :
  tag b = Some T -> T <> EmptyString ->
  Yaml.visit_ (S fuel) V (YAMLMap b items) =
  if forallb (fun p => negb (is_type_key p)) items
  then items' ← forM (Yaml.visit_pair fuel V) (items ++ [type_pair b T]);
       Ok (YAMLMap b items')
  else Throw "Key $type already set".
Proof.
  intros Ht Hne. rewrite visit_S.
  change (Yaml.callVisitor V (YAMLMap b items)) with (transform_Map (YAMLMap b items)).
  rewrite (transform_Map_tagged b items T Ht Hne).
  destruct (forallb _ items); reflexivity.
Qed.

Lemma visit_untagged_set fuel b items :
  JS.truthy (tag b) = false ->
  Yaml.visit_ (S fuel) V (YAMLSet b items) =
  (items' ← forM (Yaml.visit_pair fuel V) items; Ok (YAMLSet b items')).
Proof.
  intros H. rewrite visit_S.
  change (Yaml.callVisitor V (YAMLSet b items)) with (transform_Map (YAMLSet b items)).
  rewrite transform_Map_set_untagged by done. reflexivity.
Qed.

Lemma visit_tagged_set fuel b items T :
  tag b = Some T -> T <> EmptyString ->
  Yaml.visit_ (S fuel) V (YAMLSet b items) =
  (items' ← forM (Yaml.visit_pair fuel V)
              (items ++ if forallb (fun p => negb (is_type_key p)) items
                        then [type_pair b T] else []);
   Ok (YAMLSet b items')).
Proof.
  intros Ht Hne. rewrite visit_S.
  change (Yaml.callVisitor V (YAMLSet b items)) with (transform_Map (YAMLSet b items)).
  rewrite (transform_Map_set_tagged b items T Ht Hne). reflexivity.
Qed.

Lemma visit_seq fuel b items :
  Yaml.visit_ (S fuel) V (YAMLSeq b items) =
  (items' ← forM (Yaml.visit_ fuel V) items; Ok (YAMLSeq b items')).
Proof. reflexivity. Qed.

Lemma visit_alias fuel b s : Yaml.visit_ (S fuel) V (Alias b s) = Ok (Alias b s).
Proof. reflexivity. Qed.

(** A successful visit of a map: the callback left the items as they were
    (no tag) or pushed the discriminator pair (tag [T], no [$type] key),
    and then every pair was visited. *)
Lemma visit_map_Ok fuel b items n' :
  Yaml.visit_ (S fuel) V (YAMLMap b items) = Ok n' ->
  exists extra items',
    n' = YAMLMap b items' /\
    forM (Yaml.visit_pair fuel V) (items ++ extra) = Ok items' /\
    ((JS.truthy (tag b) = false /\ extra = []) \/
     (exists T, tag b = Some T /\ T <> EmptyString /\ extra = [type_pair b T] /\
                forallb (fun p => negb (is_type_key p)) items = true)).
Proof.
  destruct (JS.truthy (tag b)) eqn:Htag.
  - destruct (truthy_inv _ Htag) as (T & Ht & Hne).
    rewrite (visit_tagged_map fuel b items T Ht Hne).
    destruct (forallb _ items) eqn:Hall; [|discriminate].
    destruct (forM _ (items ++ _)) as [items'| |] eqn:Hf; simpl; try discriminate.
    intros [= <-]. exists [type_pair b T], items'. split; [done|]. split; [done|].
    right. exists T. auto.
  - rewrite visit_untagged_map by done.
    destruct (forM _ items) as [items'| |] eqn:Hf; simpl; try discriminate.
    intros [= <-]. exists [], items'. rewrite app_nil_r. auto.
Qed.

(** A successful visit of a set: the callback left the items as they were
    (no tag, or a pair with the key [$type]) or pushed the discriminator
    pair, and then every pair was visited. *)
Lemma visit_set_Ok fuel b items n' :
  Yaml.visit_ (S fuel) V (YAMLSet b items) = Ok n' ->
  exists extra items',
    n' = YAMLSet b items' /\
    forM (Yaml.visit_pair fuel V) (items ++ extra) = Ok items' /\
    ((JS.truthy (tag b) = false /\ extra = []) \/
     (exists T, tag b = Some T /\ T <> EmptyString /\
                extra = if forallb (fun p => negb (is_type_key p)) items
                        then [type_pair b T] else [])).
Proof.
  destruct (JS.truthy (tag b)) eqn:Htag.
  - destruct (truthy_inv _ Htag) as (T & Ht & Hne).
    rewrite (visit_tagged_set fuel b items T Ht Hne).
    destruct (forM _ (items ++ _)) as [items'| |] eqn:Hf; simpl; try discriminate.
    intros [= <-]. do 2 eexists. split; [done|]. split; [exact Hf|].
    right. exists T. auto.
  - rewrite visit_untagged_set by done.
    destruct (forM _ items) as [items'| |] eqn:Hf; simpl; try discriminate.
    intros [= <-]. exists [], items'. rewrite app_nil_r. auto.
Qed.

(** *** Fuel: [enough_fuel] suffices *)

Lemma height_key_le p (items : list (Pair Node)) :
  In p items ->
  height (key p) <= list_max (map (fun p => Nat.max (height (key p)) (height (value p))) items) /\
  height (value p) <= list_max (map (fun p => Nat.max (height (key p)) (height (value p))) items).
Proof.
  intros Hin.
  pose proof (proj1 (list_max_le (map (fun p => Nat.max (height (key p)) (height (value p))) items) _)
                (Nat.le_refl _)) as H.
  rewrite List.Forall_forall in H.
  specialize (H _ (in_map _ _ _ Hin)). simpl in H. lia.
Qed.

Lemma height_item_le x (items : list Node) :
  In x items -> height x <= list_max (map height items).
Proof.
  intros Hin.
  pose proof (proj1 (list_max_le (map height items) _) (Nat.le_refl _)) as H.
  rewrite List.Forall_forall in H. exact (H _ (in_map _ _ _ Hin)).
Qed.

Lemma visit_pair_not_OutOfFuel fuel p :
  Yaml.visit_ fuel V (key p) <> OutOfFuel ->
  Yaml.visit_ fuel V (value p) <> OutOfFuel ->
  Yaml.visit_pair (S fuel) V p <> OutOfFuel.
Proof.
  intros Hk Hv. rewrite visit_pair_S.
  destruct (Yaml.visit_ fuel V (key p)); simpl; try congruence.
  destruct (Yaml.visit_ fuel V (value p)); simpl; congruence.
Qed.

Lemma visit_enough_fuel n :
  forall fuel, enough_fuel n <= fuel -> Yaml.visit_ fuel V n <> OutOfFuel.
Proof.
  unfold enough_fuel.
  induction n as [b v | b items IH | b items IH | b s | b items IH] using Node_tree_ind;
    intros fuel Hfuel; simpl height in Hfuel.
  - destruct fuel as [|[|[|[|fuel]]]]; try lia.
    destruct (JS.truthy (tag b)) eqn:Htag.
    + destruct (truthy_inv _ Htag) as (T & Ht & Hne).
      rewrite (visit_tagged_scalar customTags fuel b v T Ht Hne). discriminate.
    + rewrite visit_untagged_scalar by done. discriminate.
  - destruct fuel as [|[|fuel]]; try lia.
    assert (Forall (fun p => Yaml.visit_pair (S fuel) V p <> OutOfFuel) items) as Hitems.
    { rewrite List.Forall_forall in IH. apply List.Forall_forall. intros p Hin.
      destruct (IH p Hin) as [IHk IHv]. destruct (height_key_le p items Hin).
      apply visit_pair_not_OutOfFuel; [apply IHk | apply IHv]; lia. }
    destruct (JS.truthy (tag b)) eqn:Htag.
    + destruct (truthy_inv _ Htag) as (T & Ht & Hne).
      rewrite (visit_tagged_map (S fuel) b items T Ht Hne).
      destruct (forallb _ items); [|discriminate].
      assert (forM (Yaml.visit_pair (S fuel) V) (items ++ [type_pair b T]) <> OutOfFuel) as Hf.
      { apply forM_not_OutOfFuel. apply Forall_app. split; [exact Hitems|].
        constructor; [|constructor].
        destruct fuel as [|fuel]; [lia|]. rewrite visit_type_pair. discriminate. }
      destruct (forM _ (items ++ _)); simpl; congruence.
    + rewrite visit_untagged_map by done.
      pose proof (forM_not_OutOfFuel _ _ Hitems) as Hf.
      destruct (forM _ items); simpl; congruence.
  - destruct fuel as [|fuel]; try lia. rewrite visit_seq.
    assert (forM (Yaml.visit_ fuel V) items <> OutOfFuel) as Hf.
    { apply forM_not_OutOfFuel. rewrite List.Forall_forall in IH.
      apply List.Forall_forall. intros x Hin. apply IH; [done|].
      pose proof (height_item_le x items Hin). lia. }
    destruct (forM _ items); simpl; congruence.
  - destruct fuel as [|fuel]; try lia. rewrite visit_alias. discriminate.
  - destruct fuel as [|[|fuel]]; try lia.
    assert (Forall (fun p => Yaml.visit_pair (S fuel) V p <> OutOfFuel) items) as Hitems.
    { rewrite List.Forall_forall in IH. apply List.Forall_forall. intros p Hin.
      destruct (IH p Hin) as [IHk IHv]. destruct (height_key_le p items Hin).
      apply visit_pair_not_OutOfFuel; [apply IHk | apply IHv]; lia. }
    destruct (JS.truthy (tag b)) eqn:Htag.
    + destruct (truthy_inv _ Htag) as (T & Ht & Hne).
      rewrite (visit_tagged_set (S fuel) b items T Ht Hne).
      assert (forM (Yaml.visit_pair (S fuel) V)
                (items ++ if forallb (fun p => negb (is_type_key p)) items
                          then [type_pair b T] else []) <> OutOfFuel) as Hf.
      { apply forM_not_OutOfFuel. apply Forall_app. split; [exact Hitems|].
        destruct (forallb _ items); constructor; [|constructor].
        destruct fuel as [|fuel]; [lia|]. rewrite visit_type_pair. discriminate. }
      destruct (forM _ (items ++ _)); simpl; congruence.
    + rewrite visit_untagged_set by done.
      pose proof (forM_not_OutOfFuel _ _ Hitems) as Hf.
      destruct (forM _ items); simpl; congruence.
Qed.

(** *** The only error *)


End Visit_transform_tree.

Section Transform_tree.
Variable customTags : list string.
Local Abbreviation V := (transform_visitor customTags).
Local Abbreviation tm := (tagMap customTags).

Lemma visit_any_fuel fuel n r :
  Yaml.visit_ fuel V n = r -> r <> OutOfFuel -> transform_node customTags n = r.
Proof.
  intros H Hr. unfold transform_node.
  pose proof (visit_enough_fuel customTags n (enough_fuel n) (Nat.le_refl _)) as He.
  rewrite <- (visit_settled V (enough_fuel n) (Nat.max fuel (enough_fuel n)) n He) by lia.
  rewrite (visit_settled V fuel (Nat.max fuel (enough_fuel n)) n) by (try lia; congruence).
  exact H.
Qed.

Lemma transform_node_fuel fuel n :
  enough_fuel n <= fuel -> Yaml.visit_ fuel V n = transform_node customTags n.
Proof.
  intros Hle. apply visit_settled; [|done].
  apply visit_enough_fuel. done.
Qed.

(** *** Locality: the visit of a tree visits each of its subtrees *)

Lemma visit_at path :
  forall fuel n n' m,
    Yaml.visit_ fuel V n = Ok n' -> node_at path n = Some m ->
    exists m', Yaml.visit_ fuel V m = Ok m' /\ node_at path n' = Some m'.
Proof.
  induction path as [|st path IH]; intros fuel n n' m Hv Hat.
  - simpl in Hat. injection Hat as <-. exists n'. auto.
  - destruct fuel as [|fuel]; [discriminate|].
    destruct st as [i|i|i]; simpl in Hat;
      destruct n as [b v | b items | b items | b s | b items]; try discriminate.
    + destruct (items !! i) as [p|] eqn:Hi; [|discriminate]. simpl in Hat.
      apply visit_map_Ok in Hv as (extra & items' & -> & Hf & _).
      apply forM_Ok in Hf.
      destruct (Forall2_lookup_l _ _ _ i p Hf) as (p' & Hi' & Hp).
      { by apply lookup_app_l_Some. }
      destruct fuel as [|fuel]; [discriminate|]. rewrite visit_pair_S in Hp.
      destruct (Yaml.visit_ fuel V (key p)) as [k| |] eqn:Hk; try discriminate.
      destruct (Yaml.visit_ fuel V (value p)) as [x| |] eqn:Hx; try discriminate.
      simpl in Hp. injection Hp as <-.
      destruct (IH fuel (key p) k m Hk Hat) as (m' & Hm & Hat').
      exists m'. split.
      * apply (visit_Ok_mono V fuel); [done | lia].
      * simpl. rewrite Hi'. exact Hat'.
    + destruct (items !! i) as [p|] eqn:Hi; [|discriminate]. simpl in Hat.
      apply visit_set_Ok in Hv as (extra & items' & -> & Hf & _).
      apply forM_Ok in Hf.
      destruct (Forall2_lookup_l _ _ _ i p Hf) as (p' & Hi' & Hp).
      { by apply lookup_app_l_Some. }
      destruct fuel as [|fuel]; [discriminate|]. rewrite visit_pair_S in Hp.
      destruct (Yaml.visit_ fuel V (key p)) as [k| |] eqn:Hk; try discriminate.
      destruct (Yaml.visit_ fuel V (value p)) as [x| |] eqn:Hx; try discriminate.
      simpl in Hp. injection Hp as <-.
      destruct (IH fuel (key p) k m Hk Hat) as (m' & Hm & Hat').
      exists m'. split.
      * apply (visit_Ok_mono V fuel); [done | lia].
      * simpl. rewrite Hi'. exact Hat'.
    + destruct (items !! i) as [p|] eqn:Hi; [|discriminate]. simpl in Hat.
      apply visit_map_Ok in Hv as (extra & items' & -> & Hf & _).
      apply forM_Ok in Hf.
      destruct (Forall2_lookup_l _ _ _ i p Hf) as (p' & Hi' & Hp).
      { by apply lookup_app_l_Some. }
      destruct fuel as [|fuel]; [discriminate|]. rewrite visit_pair_S in Hp.
      destruct (Yaml.visit_ fuel V (key p)) as [k| |] eqn:Hk; try discriminate.
      destruct (Yaml.visit_ fuel V (value p)) as [x| |] eqn:Hx; try discriminate.
      simpl in Hp. injection Hp as <-.
      destruct (IH fuel (value p) x m Hx Hat) as (m' & Hm & Hat').
      exists m'. split.
      * apply (visit_Ok_mono V fuel); [done | lia].
      * simpl. rewrite Hi'. exact Hat'.
    + destruct (items !! i) as [p|] eqn:Hi; [|discriminate]. simpl in Hat.
      apply visit_set_Ok in Hv as (extra & items' & -> & Hf & _).
      apply forM_Ok in Hf.
      destruct (Forall2_lookup_l _ _ _ i p Hf) as (p' & Hi' & Hp).
      { by apply lookup_app_l_Some. }
      destruct fuel as [|fuel]; [discriminate|]. rewrite visit_pair_S in Hp.
      destruct (Yaml.visit_ fuel V (key p)) as [k| |] eqn:Hk; try discriminate.
      destruct (Yaml.visit_ fuel V (value p)) as [x| |] eqn:Hx; try discriminate.
      simpl in Hp. injection Hp as <-.
      destruct (IH fuel (value p) x m Hx Hat) as (m' & Hm & Hat').
      exists m'. split.
      * apply (visit_Ok_mono V fuel); [done | lia].
      * simpl. rewrite Hi'. exact Hat'.
    + destruct (items !! i) as [x|] eqn:Hi; [|discriminate]. simpl in Hat.
      rewrite visit_seq in Hv.
      destruct (forM _ items) as [items'| |] eqn:Hf; try discriminate.
      simpl in Hv. injection Hv as <-. apply forM_Ok in Hf.
      destruct (Forall2_lookup_l _ _ _ i x Hf Hi) as (x' & Hi' & Hx).
      destruct (IH fuel x x' m Hx Hat) as (m' & Hm & Hat').
      exists m'. split.
      * apply (visit_Ok_mono V fuel); [done | lia].
      * simpl. rewrite Hi'. exact Hat'.
Qed.

Lemma transform_Ok_inv doc doc' :
  transform doc customTags = Ok doc' ->
  (contents doc = None /\ doc' = doc) \/
  (exists n n', contents doc = Some n /\ contents doc' = Some n' /\
                transform_node customTags n = Ok n').
Proof.
  unfold transform, transform_fuel, Yaml.visit, doc_fuel, transform_node.
  destruct (contents doc) as [n|] eqn:Hc.
  - destruct (Yaml.visit_ _ _ n) as [n'| |] eqn:Hv; try discriminate.
    simpl. intros [= <-]. right. exists n, n'. auto.
  - intros [= <-]. auto.
Qed.

(** Every node of the input is visited: the output holds, at the same
    path, the outcome of visiting it. *)
Lemma transform_at doc doc' path m :
  transform doc customTags = Ok doc' -> doc_at path doc = Some m ->
  exists m', transform_node customTags m = Ok m' /\ doc_at path doc' = Some m'.
Proof.
  intros Ht Hat. apply transform_Ok_inv in Ht as [[Hc _]|(n & n' & Hc & Hc' & Hn)].
  - unfold doc_at in Hat. rewrite Hc in Hat. discriminate.
  - unfold doc_at in *. rewrite Hc in Hat. rewrite Hc'. simpl in *.
    destruct (visit_at path _ n n' m Hn Hat) as (m' & Hm & Hat').
    exists m'. split; [|done].
    apply (visit_any_fuel _ _ _ Hm). discriminate.
Qed.

(** *** [transform] always settles *)

Lemma transform_settles doc : transform doc customTags <> OutOfFuel.
Proof.
  unfold transform, transform_fuel, Yaml.visit, doc_fuel.
  destruct (contents doc) as [n|]; [|discriminate].
  pose proof (visit_enough_fuel customTags n _ (Nat.le_refl _)) as H.
  destruct (Yaml.visit_ _ _ n); simpl; congruence.
Qed.

Lemma transform_fuel_enough doc fuel :
  doc_fuel doc <= fuel -> transform_fuel fuel doc customTags = transform doc customTags.
Proof.
  unfold transform, transform_fuel, Yaml.visit, doc_fuel.
  destruct (contents doc) as [n|]; [|reflexivity]. intros Hle.
  rewrite (visit_settled V (enough_fuel n) fuel n); [reflexivity | | done].
  by apply visit_enough_fuel.
Qed.


(** *** Trees without tags *)

Lemma visit_untagged n :
  every no_tag n = true ->
  forall fuel, enough_fuel n <= fuel -> Yaml.visit_ fuel V n = Ok n.
Proof.
  unfold enough_fuel.
  induction n as [b v | b items IH | b items IH | b s | b items IH] using Node_tree_ind;
    intros Hun fuel Hfuel; simpl in Hun, Hfuel;
    apply andb_true_iff in Hun as [Hb Hch]; unfold no_tag in Hb; simpl in Hb;
    apply negb_true_iff in Hb.
  - destruct fuel as [|fuel]; [lia|]. by apply visit_untagged_scalar.
  - destruct fuel as [|[|fuel]]; try lia.
    rewrite visit_untagged_map by done.
    rewrite forM_id; [reflexivity|].
    rewrite List.Forall_forall in IH. apply List.Forall_forall. intros p Hin.
    rewrite forallb_forall in Hch. specialize (Hch p Hin).
    apply andb_true_iff in Hch as [Hk Hv].
    destruct (IH p Hin) as [IHk IHv]. destruct (height_key_le p items Hin).
    rewrite visit_pair_S, IHk, IHv by (done || lia). by destruct p.
  - destruct fuel as [|fuel]; try lia. rewrite visit_seq.
    rewrite forM_id; [reflexivity|].
    rewrite List.Forall_forall in IH. apply List.Forall_forall. intros x Hin.
    rewrite forallb_forall in Hch. specialize (Hch x Hin).
    pose proof (height_item_le x items Hin).
    apply IH; [done | done | lia].
  - destruct fuel as [|fuel]; try lia. reflexivity.
  - destruct fuel as [|[|fuel]]; try lia.
    rewrite visit_untagged_set by done.
    rewrite forM_id; [reflexivity|].
    rewrite List.Forall_forall in IH. apply List.Forall_forall. intros p Hin.
    rewrite forallb_forall in Hch. specialize (Hch p Hin).
    apply andb_true_iff in Hch as [Hk Hv].
    destruct (IH p Hin) as [IHk IHv]. destruct (height_key_le p items Hin).
    rewrite visit_pair_S, IHk, IHv by (done || lia). by destruct p.
Qed.

End Transform_tree.

(** ** The callback on the store *)

Module HeapFacts.
Import Heap.

Lemma run_bind {A B} (m : op A) (f : A -> op B) h :
  (m ≫= f) h =
  match m h with
  | Ok (a, h') => f a h'
  | Throw msg => Throw msg
  | OutOfFuel => OutOfFuel
  end.
Proof. reflexivity. Qed.

Section Frame.
Variable h : heap.

Lemma lookup_new (news : heap) k : (h ++ news) !! (length h + k) = news !! k.
Proof. rewrite lookup_app_r by lia. f_equal. lia. Qed.

Lemma read_old news l o :
  h !! l = Some o -> read l (h ++ news) = Ok (o, h ++ news).
Proof. intros H. unfold read. rewrite (lookup_app_l_Some _ _ _ _ H). reflexivity. Qed.

Lemma read_new news k o :
  news !! k = Some o -> read (length h + k) (h ++ news) = Ok (o, h ++ news).
Proof. intros H. unfold read. rewrite lookup_new, H. reflexivity. Qed.

Lemma alloc_new news o :
  alloc o (h ++ news) = Ok (length h + length news, h ++ (news ++ [o])).
Proof. unfold alloc. rewrite length_app, <- app_assoc. reflexivity. Qed.

Lemma write_new news k o :
  write (length h + k) o (h ++ news) = Ok (tt, h ++ <[k := o]> news).
Proof.
  unfold write. rewrite insert_app_r_alt by lia.
  replace (length h + k - length h) with k by lia. reflexivity.
Qed.

Lemma set_range_new news k o r :
  news !! k = Some o ->
  set_range (length h + k) r (h ++ news) =
  Ok (tt, h ++ <[k := obj_with_base (fun b => mkBase (tag b) r (srcToken b)) o]> news).
Proof.
  intros H. unfold set_range. rewrite run_bind, (read_new _ _ _ H). apply write_new.
Qed.

Lemma set_srcToken_new news k o t :
  news !! k = Some o ->
  set_srcToken (length h + k) t (h ++ news) =
  Ok (tt, h ++ <[k := obj_with_base (fun b => mkBase (tag b) (range b) t) o]> news).
Proof.
  intros H. unfold set_srcToken. rewrite run_bind, (read_new _ _ _ H). apply write_new.
Qed.

Lemma set_tag_new news k o t :
  news !! k = Some o ->
  set_tag (length h + k) t (h ++ news) =
  Ok (tt, h ++ <[k := obj_with_base (fun b => mkBase t (range b) (srcToken b)) o]> news).
Proof.
  intros H. unfold set_tag. rewrite run_bind, (read_new _ _ _ H). apply write_new.
Qed.

Lemma get_base_old news l o :
  h !! l = Some o -> get_base l (h ++ news) = Ok (obj_base o, h ++ news).
Proof. intros H. unfold get_base. rewrite run_bind, (read_old _ _ _ H). reflexivity. Qed.

Lemma get_tag_old news l o :
  h !! l = Some o -> get_tag l (h ++ news) = Ok (tag (obj_base o), h ++ news).
Proof. intros H. unfold get_tag. rewrite run_bind, (get_base_old _ _ _ H). reflexivity. Qed.

Lemma get_range_old news l o :
  h !! l = Some o -> get_range l (h ++ news) = Ok (range (obj_base o), h ++ news).
Proof. intros H. unfold get_range. rewrite run_bind, (get_base_old _ _ _ H). reflexivity. Qed.

Lemma get_srcToken_old news l o :
  h !! l = Some o -> get_srcToken l (h ++ news) = Ok (srcToken (obj_base o), h ++ news).
Proof.
  intros H. unfold get_srcToken. rewrite run_bind, (get_base_old _ _ _ H). reflexivity.
Qed.

Lemma clone_old news l o :
  h !! l = Some o ->
  clone l (h ++ news) = Ok (length h + length news, h ++ (news ++ [o])).
Proof. intros H. unfold clone. rewrite run_bind, (read_old _ _ _ H). apply alloc_new. Qed.

(** [createPairFrom] allocates the key node, the value node when the
    value is not a node, and the pair; it writes to these only. *)
Lemma createPairFrom_string_new news node b v key s :
  h !! node = Some (OScalar b v) ->
  createPairFrom node key (AString s) (h ++ news) =
  Ok (length h + (length news + 2),
      h ++ (news ++ [OScalar (at_position_of b) (VString key);
                     OScalar (at_position_of b) (VString s);
                     OPair (length h + length news) (length h + (length news + 1))])).
Proof.
  intros H. unfold createPairFrom, createNode_string, createPair.
  rewrite run_bind, alloc_new.
  rewrite run_bind, (get_range_old _ _ _ H).
  rewrite run_bind, (set_range_new _ _ (OScalar Yaml.fresh (VString key)))
    by (rewrite lookup_app_r by lia; by rewrite Nat.sub_diag).
  rewrite insert_app_r_alt, Nat.sub_diag by lia. simpl insert.
  rewrite run_bind, (get_srcToken_old _ _ _ H).
  rewrite run_bind.
  rewrite (set_srcToken_new _ _ (OScalar (mkBase None (range b) None) (VString key)))
    by (rewrite lookup_app_r by lia; by rewrite Nat.sub_diag).
  rewrite insert_app_r_alt, Nat.sub_diag by lia. simpl insert.
  rewrite run_bind, alloc_new, length_app. simpl length.
  rewrite run_bind, (get_range_old _ _ _ H).
  rewrite run_bind, (set_range_new _ _ (OScalar Yaml.fresh (VString s)))
    by (rewrite lookup_app_r by (rewrite length_app; simpl; lia);
        rewrite length_app; simpl; by rewrite Nat.sub_diag).
  rewrite insert_app_r_alt by (rewrite length_app; simpl; lia).
  rewrite length_app. simpl length. rewrite Nat.sub_diag. simpl insert.
  rewrite run_bind, (get_srcToken_old _ _ _ H).
  rewrite run_bind.
  rewrite (set_srcToken_new _ _ (OScalar (mkBase None (range b) None) (VString s)))
    by (rewrite lookup_app_r by (rewrite length_app; simpl; lia);
        rewrite length_app; simpl; by rewrite Nat.sub_diag).
  rewrite insert_app_r_alt by (rewrite length_app; simpl; lia).
  rewrite length_app. simpl length. rewrite Nat.sub_diag. simpl insert.
  rewrite alloc_new. rewrite !length_app. simpl length.
  rewrite <- !app_assoc. simpl app.
  replace (length news + 1 + 1) with (length news + 2) by lia. reflexivity.
Qed.

Lemma createPairFrom_node_new news node b v key c :
  h !! node = Some (OScalar b v) ->
  createPairFrom node key (ANode c) (h ++ news) =
  Ok (length h + (length news + 1),
      h ++ (news ++ [OScalar (at_position_of b) (VString key);
                     OPair (length h + length news) c])).
Proof.
  intros H. unfold createPairFrom, createNode_string, createPair.
  rewrite run_bind, alloc_new.
  rewrite run_bind, (get_range_old _ _ _ H).
  rewrite run_bind, (set_range_new _ _ (OScalar Yaml.fresh (VString key)))
    by (rewrite lookup_app_r by lia; by rewrite Nat.sub_diag).
  rewrite insert_app_r_alt, Nat.sub_diag by lia. simpl insert.
  rewrite run_bind, (get_srcToken_old _ _ _ H).
  rewrite run_bind.
  rewrite (set_srcToken_new _ _ (OScalar (mkBase None (range b) None) (VString key)))
    by (rewrite lookup_app_r by lia; by rewrite Nat.sub_diag).
  rewrite insert_app_r_alt, Nat.sub_diag by lia. simpl insert.
  rewrite alloc_new, length_app. simpl length.
  rewrite <- !app_assoc. reflexivity.
Qed.

Lemma add_new news km kp b items k v :
  news !! km = Some (OMap b items) -> news !! kp = Some (OPair k v) ->
  findPair (h ++ news) items k = None ->
  add (length h + km) (length h + kp) (h ++ news) =
  Ok (tt, h ++ <[km := OMap b (items ++ [length h + kp])]> news).
Proof.
  intros Hm Hp Hf. unfold add.
  rewrite run_bind, (read_new _ _ _ Hm).
  rewrite run_bind, (read_new _ _ _ Hp).
  rewrite Hf. apply write_new.
Qed.

(** The run of the callback on a tagged scalar: it only reads [node], and
    everything it writes is newly allocated behind the objects of [h]. *)
Lemma transform_Scalar_run tm node b v T :
  h !! node = Some (OScalar b v) -> tag b = Some T -> T <> EmptyString ->
  transform_Scalar tm node h =
  Ok (Some (length h),
      h ++ OMap (at_position_of b)
             (length h + 3 ::
              if bool_decide (tm !! T = Some "scalar") then [length h + 6] else [])
        :: OScalar (at_position_of b) (VString "$type")
        :: OScalar (at_position_of b) (VString (stripped T))
        :: OPair (length h + 1) (length h + 2)
        :: if bool_decide (tm !! T = Some "scalar")
           then [OScalar (at_position_of b) v;
                 OScalar (at_position_of b) (VString "value");
                 OPair (length h + 5) (length h + 4)]
           else []).
Proof.
  intros H Ht Hne.
  transitivity (transform_Scalar tm node (h ++ [])); [by rewrite app_nil_r|].
  unfold transform_Scalar.
  rewrite run_bind, (get_tag_old _ _ _ H). cbv beta iota.
  change (obj_base (OScalar b v)) with b.
  rewrite Ht, (truthy_Some T Hne). cbn [negb].
  unfold createNode_empty_object.
  rewrite run_bind, alloc_new. cbv beta iota. cbn [length app Nat.add].
  rewrite run_bind, (get_range_old _ _ _ H). cbv beta iota.
  rewrite run_bind, (set_range_new [_] 0 (OMap Yaml.fresh [])) by reflexivity.
  cbv beta iota. cbn [insert list_insert obj_with_base tag srcToken Yaml.fresh].
  rewrite run_bind, (get_srcToken_old _ _ _ H). cbv beta iota.
  rewrite run_bind.
  change (obj_base (OScalar b v)) with b.
  rewrite (set_srcToken_new [_] 0 (OMap (mkBase None (range b) None) [])) by reflexivity.
  cbv beta iota. cbn [insert list_insert obj_with_base tag range].
  rewrite run_bind, (get_tag_old _ _ _ H). cbv beta iota.
  change (obj_base (OScalar b v)) with b. rewrite Ht. cbn [default from_option id].
  rewrite run_bind, (createPairFrom_string_new _ _ _ _ _ _ H).
  cbv beta iota. cbn [length app Nat.add].
  rewrite run_bind.
  rewrite (add_new _ 0 3 (mkBase None (range b) (srcToken b)) []
             (length h + 1) (length h + 2)) by reflexivity.
  cbv beta iota. cbn [insert list_insert app].
  rewrite run_bind, (get_tag_old _ _ _ H). cbv beta iota.
  change (obj_base (OScalar b v)) with b. rewrite Ht. cbn [default from_option id].
  destruct (bool_decide (tm !! T = Some "scalar")).
  - rewrite run_bind, run_bind, (clone_old _ _ _ H).
    cbv beta iota. cbn [length app Nat.add].
    rewrite run_bind, (set_tag_new _ 4 (OScalar b v)) by reflexivity.
    cbv beta iota. cbn [insert list_insert obj_with_base].
    rewrite run_bind, (createPairFrom_node_new _ _ _ _ _ _ H).
    cbv beta iota. cbn [length app Nat.add].
    rewrite (add_new _ 0 6 (mkBase None (range b) (srcToken b)) [length h + 3]
               (length h + 5) (length h + 4)).
    + rewrite Nat.add_0_r. reflexivity.
    + reflexivity.
    + reflexivity.
    + unfold findPair. cbn [List.find].
      rewrite (lookup_new _ 3). cbn [lookup list_lookup].
      rewrite bool_decide_eq_false_2 by lia. cbn [orb].
      rewrite (lookup_new _ 1), (lookup_new _ 5). reflexivity.
  - rewrite run_bind, Nat.add_0_r. reflexivity.
Qed.

End Frame.
End HeapFacts.

(** ** The registry *)

Lemma split_nonempty sep s : JS.split sep s <> [].
Proof.
  destruct s as [|c s]; simpl; [discriminate|].
  destruct (Ascii.eqb c sep); [discriminate|]. destruct (JS.split sep s); discriminate.
Qed.

Lemma split_no_separator sep s :
  JS.includes (String sep EmptyString) s = false -> JS.split sep s = [s].
Proof.
  induction s as [|c s IH]; simpl; [reflexivity|].
  rewrite (Ascii.eqb_sym c sep). destruct (Ascii.eqb sep c); simpl; [discriminate|].
  intros H. rewrite (IH H). reflexivity.
Qed.

Lemma foldl_insert_other (l : list (string * string)) (m : gmap string string) T :
  Forall (fun c => c.1 <> T) l ->
  foldl (fun p c => <[ c.1 := c.2 ]> p) m l !! T = m !! T.
Proof.
  intros H. revert m. induction H as [|c l Hc Hl IH]; intros m; simpl; [done|].
  rewrite IH. by apply lookup_insert_ne.
Qed.

Lemma tagMap_undeclared customTags T :
  Forall (fun d => declared_tag d <> T) customTags ->
  tagMap customTags !! T = None.
Proof.
  intros H. unfold tagMap. rewrite foldl_insert_other; [apply lookup_empty|].
  rewrite !List.Forall_map. eapply List.Forall_impl; [|exact H].
  intros d Hd. exact Hd.
Qed.

Lemma tagMap_snoc customTags d :
  tagMap (customTags ++ [d]) =
  <[ declared_tag d :=
       if decide (1 < length (JS.split " " d))
       then nth 1 (JS.split " " d) EmptyString else "scalar" ]> (tagMap customTags).
Proof. unfold tagMap. rewrite !map_app, foldl_app. reflexivity. Qed.

(** A declaration that names no kind gives its tag the kind ['scalar']. *)
Lemma tagMap_bare_declaration customTags T :
  JS.includes " " T = false -> tagMap (customTags ++ [T]) !! T = Some "scalar".
Proof.
  intros H. rewrite tagMap_snoc. unfold declared_tag.
  rewrite (split_no_separator " " T H). simpl. apply lookup_insert_eq.
Qed.

Lemma tagMap_snoc_kind customTags d :
  tagMap (customTags ++ [d]) = <[ declared_tag d := declared_kind d ]> (tagMap customTags).
Proof. apply tagMap_snoc. Qed.

(** The registry holds, for a tag, the kind of the last declaration that
    declares it. *)
Lemma tagMap_last_declaration customTags T :
  tagMap customTags !! T =
  declared_kind <$> last (filter (fun d => declared_tag d = T) customTags).
Proof.
  induction customTags as [|d l IH] using rev_ind.
  - apply lookup_empty.
  - rewrite tagMap_snoc_kind, filter_app.
    destruct (decide (declared_tag d = T)) as [<-|Hne].
    + rewrite lookup_insert_eq.
      rewrite (filter_cons_True _ d []) by reflexivity.
      rewrite filter_nil, last_snoc. reflexivity.
    + rewrite lookup_insert_ne by done.
      rewrite (filter_cons_False _ d []) by done.
      rewrite filter_nil, app_nil_r. exact IH.
Qed.

Lemma split_at_first sep T rest :
  JS.includes (String sep EmptyString) T = false ->
  JS.split sep (T +:+ String sep rest) = T :: JS.split sep rest.
Proof.
  induction T as [|c T IH]; simpl.
  - intros _. by rewrite Ascii.eqb_refl.
  - rewrite (Ascii.eqb_sym c sep). destruct (Ascii.eqb sep c); simpl; [discriminate|].
    intros H. rewrite (IH H). reflexivity.
Qed.

Lemma split_at_first_separator T rest :
  JS.includes " " T = false ->
  JS.split " " (T +:+ " " +:+ rest) = T :: JS.split " " rest.
Proof. apply (split_at_first " "). Qed.

(** The first piece of [s.split(sep)] is the whole of [s], or what stands
    before the first separator. *)
Lemma split_first_token sep s :
  s = nth 0 (JS.split sep s) EmptyString \/
  exists rest, s = nth 0 (JS.split sep s) EmptyString +:+ String sep rest.
Proof.
  induction s as [|c s IH]; simpl; [by left|].
  destruct (Ascii.eqb_spec c sep) as [->|Hne]; simpl.
  - right. exists s. reflexivity.
  - destruct (JS.split sep s) as [|w ws] eqn:E; [by destruct (split_nonempty sep s)|].
    simpl in *. destruct IH as [IH|[rest IH]].
    + left. congruence.
    + right. exists rest.
      change (String c w +:+ String sep rest) with (String c (w +:+ String sep rest)).
      congruence.
Qed.

(** A declaration that declares [T] is [T] itself, or starts with [T] and a
    blank. *)
Lemma declared_tag_inv d T :
  declared_tag d = T -> d = T \/ exists rest, d = T +:+ " " +:+ rest.
Proof. intros <-. apply (split_first_token " "). Qed.

Lemma declared_tag_first T rest :
  JS.includes " " T = false -> declared_tag (T +:+ " " +:+ rest) = T.
Proof. intros H. unfold declared_tag. by rewrite split_at_first_separator. Qed.

Lemma declared_kind_first T rest :
  JS.includes " " T = false ->
  declared_kind (T +:+ " " +:+ rest) = nth 0 (JS.split " " rest) EmptyString.
Proof.
  intros H. unfold declared_kind. rewrite split_at_first_separator by done.
  pose proof (split_nonempty " " rest) as Hne.
  destruct (JS.split " " rest) as [|w ws]; [done|]. simpl.
  destruct (decide (1 < S (S (length ws)))); [reflexivity | lia].
Qed.

Lemma tagMap_kind_declaration customTags T rest :
  JS.includes " " T = false ->
  tagMap (customTags ++ [T +:+ " " +:+ rest]) !! T =
  Some (nth 0 (JS.split " " rest) EmptyString).
Proof.
  intros H. rewrite tagMap_snoc_kind, declared_tag_first by done.
  rewrite lookup_insert_eq. by rewrite declared_kind_first.
Qed.

Lemma tagMap_not_declared customTags T :
  Forall (fun d => d <> T /\ forall rest, d <> T +:+ " " +:+ rest) customTags ->
  tagMap customTags !! T = None.
Proof.
  intros H. apply tagMap_undeclared. eapply List.Forall_impl; [|exact H].
  intros d [Hd Hrest] Hdecl. cbv beta in *.
  destruct (declared_tag_inv d T Hdecl) as [->|[rest ->]]; [done|].
  by apply (Hrest rest).
Qed.

(** ** Tagged nodes in a document *)

Section Transform_tagged.
Variable customTags : list string.
Local Abbreviation V := (transform_visitor customTags).
Local Abbreviation tm := (tagMap customTags).

Lemma transform_node_tagged_scalar b v T :
  tag b = Some T -> T <> EmptyString ->
  transform_node customTags (Scalar b v) = Ok (replacement tm b v T).
Proof. intros Ht Hne. exact (visit_tagged_scalar customTags 0 b v T Ht Hne). Qed.

Lemma transform_tagged_scalar_at doc doc' path b v T :
  transform doc customTags = Ok doc' ->
  doc_at path doc = Some (Scalar b v) ->
  tag b = Some T -> T <> EmptyString ->
  doc_at path doc' = Some (replacement tm b v T).
Proof.
  intros Htr Hat Ht Hne.
  destruct (transform_at customTags doc doc' path _ Htr Hat) as (m' & Hm & Hat').
  rewrite (transform_node_tagged_scalar b v T Ht Hne) in Hm. by injection Hm as <-.
Qed.

(** The outcome of visiting a tagged map, when there is one: no pair had
    the key [$type]; the pairs were visited one by one, and the
    discriminator pair stands last. *)
Lemma transform_node_tagged_map b items T n' :
  tag b = Some T -> T <> EmptyString ->
  transform_node customTags (YAMLMap b items) = Ok n' ->
  exists items',
    n' = YAMLMap b (items' ++ [type_pair b T]) /\
    forallb (fun p => negb (is_type_key p)) items = true /\
    Forall2 (fun p p' => transform_node customTags (key p) = Ok (key p') /\
                         transform_node customTags (value p) = Ok (value p'))
            items items'.
Proof.
  intros Ht Hne. unfold transform_node at 1.
  assert (exists fuel, enough_fuel (YAMLMap b items) = S (S (S fuel))) as [fuel ->].
  { unfold enough_fuel. simpl height. set (h := list_max _). exists (2 * h + 3). lia. }
  intros Hv. apply visit_map_Ok in Hv as (extra & items'' & -> & Hf & Hcase).
  destruct Hcase as [[Hfalse _]|(T' & Ht' & _ & -> & Hall)].
  { rewrite Ht, (truthy_Some T Hne) in Hfalse. discriminate. }
  rewrite Ht in Ht'. injection Ht' as <-.
  rewrite forM_app in Hf.
  destruct (forM _ items) as [items'| |] eqn:Hitems; try discriminate.
  simpl in Hf. injection Hf as <-.
  exists items'. split; [done|]. split; [done|].
  apply forM_Ok in Hitems. eapply Forall2_impl; [exact Hitems|].
  intros p p' Hp. cbv beta in Hp. rewrite visit_pair_S in Hp.
  destruct (Yaml.visit_ (S fuel) V (key p)) as [k| |] eqn:Hk; try discriminate.
  destruct (Yaml.visit_ (S fuel) V (value p)) as [x| |] eqn:Hx; try discriminate.
  simpl in Hp. injection Hp as <-. simpl. split.
  - apply (visit_any_fuel customTags _ _ _ Hk). discriminate.
  - apply (visit_any_fuel customTags _ _ _ Hx). discriminate.
Qed.

Lemma transform_tagged_map_at doc doc' path b items T :
  transform doc customTags = Ok doc' ->
  doc_at path doc = Some (YAMLMap b items) ->
  tag b = Some T -> T <> EmptyString ->
  exists items',
    doc_at path doc' = Some (YAMLMap b (items' ++ [type_pair b T])) /\
    forallb (fun p => negb (is_type_key p)) items = true /\
    Forall2 (fun p p' => transform_node customTags (key p) = Ok (key p') /\
                         transform_node customTags (value p) = Ok (value p'))
            items items'.
Proof.
  intros Htr Hat Ht Hne.
  destruct (transform_at customTags doc doc' path _ Htr Hat) as (m' & Hm & Hat').
  destruct (transform_node_tagged_map b items T m' Ht Hne Hm) as (items' & -> & ? & ?).
  exists items'. auto.
Qed.

(** The outcome of visiting a tagged set: the pairs were visited one by
    one, and the discriminator pair stands last unless a pair had the key
    [$type] already. *)
Lemma transform_node_tagged_set b items T n' :
  tag b = Some T -> T <> EmptyString ->
  transform_node customTags (YAMLSet b items) = Ok n' ->
  exists items',
    n' = YAMLSet b (items' ++ if forallb (fun p => negb (is_type_key p)) items
                              then [type_pair b T] else []) /\
    Forall2 (fun p p' => transform_node customTags (key p) = Ok (key p') /\
                         transform_node customTags (value p) = Ok (value p'))
            items items'.
Proof.
  intros Ht Hne. unfold transform_node at 1.
  assert (exists fuel, enough_fuel (YAMLSet b items) = S (S (S fuel))) as [fuel ->].
  { unfold enough_fuel. simpl height. set (h := list_max _). exists (2 * h + 3). lia. }
  intros Hv. apply visit_set_Ok in Hv as (extra & items'' & -> & Hf & Hcase).
  destruct Hcase as [[Hfalse _]|(T' & Ht' & _ & ->)].
  { rewrite Ht, (truthy_Some T Hne) in Hfalse. discriminate. }
  rewrite Ht in Ht'. injection Ht' as <-.
  rewrite forM_app in Hf.
  destruct (forM _ items) as [items'| |] eqn:Hitems; try discriminate.
  assert (forM (Yaml.visit_pair (S (S fuel)) V)
            (if forallb (fun p => negb (is_type_key p)) items
             then [type_pair b T] else []) =
          Ok (if forallb (fun p => negb (is_type_key p)) items
              then [type_pair b T] else [])) as Hextra
    by (destruct (forallb _ items); reflexivity).
  rewrite Hextra in Hf. simpl in Hf. injection Hf as <-.
  exists items'. split; [done|].
  apply forM_Ok in Hitems. eapply Forall2_impl; [exact Hitems|].
  intros p p' Hp. cbv beta in Hp. rewrite visit_pair_S in Hp.
  destruct (Yaml.visit_ (S fuel) V (key p)) as [k| |] eqn:Hk; try discriminate.
  destruct (Yaml.visit_ (S fuel) V (value p)) as [x| |] eqn:Hx; try discriminate.
  simpl in Hp. injection Hp as <-. simpl. split.
  - apply (visit_any_fuel customTags _ _ _ Hk). discriminate.
  - apply (visit_any_fuel customTags _ _ _ Hx). discriminate.
Qed.

Lemma transform_tagged_set_at doc doc' path b items T :
  transform doc customTags = Ok doc' ->
  doc_at path doc = Some (YAMLSet b items) ->
  tag b = Some T -> T <> EmptyString ->
  exists items',
    doc_at path doc' =
      Some (YAMLSet b (items' ++ if forallb (fun p => negb (is_type_key p)) items
                                 then [type_pair b T] else [])) /\
    Forall2 (fun p p' => transform_node customTags (key p) = Ok (key p') /\
                         transform_node customTags (value p) = Ok (value p'))
            items items'.
Proof.
  intros Htr Hat Ht Hne.
  destruct (transform_at customTags doc doc' path _ Htr Hat) as (m' & Hm & Hat').
  destruct (transform_node_tagged_set b items T m' Ht Hne Hm) as (items' & -> & ?).
  exists items'. auto.
Qed.

Lemma transform_node_untagged n :
  every no_tag n = true -> transform_node customTags n = Ok n.
Proof. intros H. apply visit_untagged; [done | lia]. Qed.


End Transform_tagged.

(** ** Properties of nodes that depend on their position only *)

Section Positions.
Variable customTags : list string.
Local Abbreviation V := (transform_visitor customTags).
Variable P : Node -> bool.
Hypothesis P_position : forall n m, position n = position m -> P n = P m.

Lemma every_P n : every P n = true -> P n = true.
Proof. destruct n; simpl; intros H; apply andb_true_iff in H; tauto. Qed.

Lemma every_replacement tm b v T :
  P (Scalar b v) = true -> every P (replacement tm b v T) = true.
Proof.
  intros H. unfold replacement.
  assert (forall x, P (Scalar (at_position_of b) x) = true) as Hs.
  { intros x. rewrite <- H. by apply P_position. }
  assert (P (YAMLMap (at_position_of b)
               (type_pair b T :: (if bool_decide (tm !! T = Some "scalar")
                                  then [value_pair b v] else []))) = true) as Hm.
  { rewrite <- H. by apply P_position. }
  simpl. rewrite Hm, !Hs. simpl.
  destruct (bool_decide _); simpl; rewrite ?Hs; reflexivity.
Qed.

Lemma every_type_pair b T items:
  P (YAMLMap b items) = true ->
  every P (key (type_pair b T)) && every P (value (type_pair b T)) = true.
Proof.
  intros H. simpl.
  assert (forall x, P (Scalar (at_position_of b) x) = true) as Hs.
  { intros x. rewrite <- H. by apply P_position. }
  rewrite !Hs. reflexivity.
Qed.

Lemma every_type_pair_set b T items:
  P (YAMLSet b items) = true ->
  every P (key (type_pair b T)) && every P (value (type_pair b T)) = true.
Proof.
  intros H. simpl.
  assert (forall x, P (Scalar (at_position_of b) x) = true) as Hs.
  { intros x. rewrite <- H. by apply P_position. }
  rewrite !Hs. reflexivity.
Qed.

Lemma visit_every_both fuel :
  (forall n n', Yaml.visit_ fuel V n = Ok n' -> every P n = true -> every P n' = true) /\
  (forall p p', Yaml.visit_pair fuel V p = Ok p' ->
     every P (key p) && every P (value p) = true ->
     every P (key p') && every P (value p') = true).
Proof.
  induction fuel as [|fuel [IHn IHp]]; [split; discriminate|].
  split.
  - intros n n' Hv Hn. destruct n as [b v | b items | b items | b s | b items].
    + destruct (JS.truthy (tag b)) eqn:Htag.
      * destruct (truthy_inv _ Htag) as (T & Ht & Hne).
        rewrite visit_S in Hv.
        change (Yaml.callVisitor V (Scalar b v))
          with (transform_Scalar (tagMap customTags) (Scalar b v)) in Hv.
        rewrite (transform_Scalar_tagged _ b v T Ht Hne) in Hv. simpl in Hv.
        apply (IHn _ _ Hv). apply every_replacement. by apply every_P.
      * rewrite visit_untagged_scalar in Hv by done. by injection Hv as <-.
    + pose proof (every_P _ Hn) as Hb.
      apply visit_map_Ok in Hv as (extra & items' & -> & Hf & Hcase).
      simpl in Hn. apply andb_true_iff in Hn as [_ Hitems].
      assert (forallb (fun p => every P (key p) && every P (value p)) (items ++ extra) = true)
        as Hall.
      { rewrite forallb_app, Hitems. simpl.
        destruct Hcase as [[_ ->]|(T & _ & _ & -> & _)]; [done|].
        simpl. rewrite andb_true_r. exact (every_type_pair b T items Hb). }
      simpl. rewrite (P_position _ (YAMLMap b items)) by done. rewrite Hb. simpl.
      apply forM_Ok in Hf. clear Hcase Hitems Hb.
      induction Hf as [|p p' l l' Hp Hl IH]; [done|].
      simpl in Hall. apply andb_true_iff in Hall as [Hp1 Hl1].
      simpl. rewrite (IHp _ _ Hp Hp1). simpl. by apply IH.
    + pose proof (every_P _ Hn) as Hb.
      rewrite visit_seq in Hv.
      destruct (forM _ items) as [items'| |] eqn:Hf; try discriminate.
      simpl in Hv. injection Hv as <-.
      simpl in Hn. apply andb_true_iff in Hn as [_ Hitems].
      simpl. rewrite (P_position _ (YAMLSeq b items)) by done. rewrite Hb. simpl.
      apply forM_Ok in Hf. clear Hb.
      induction Hf as [|x x' l l' Hx Hl IH]; [done|].
      simpl in Hitems. apply andb_true_iff in Hitems as [Hx1 Hl1].
      simpl. rewrite (IHn _ _ Hx Hx1). simpl. by apply IH.
    + rewrite visit_alias in Hv. by injection Hv as <-.
    + pose proof (every_P _ Hn) as Hb.
      apply visit_set_Ok in Hv as (extra & items' & -> & Hf & Hcase).
      simpl in Hn. apply andb_true_iff in Hn as [_ Hitems].
      assert (forallb (fun p => every P (key p) && every P (value p)) (items ++ extra) = true)
        as Hall.
      { rewrite forallb_app, Hitems. simpl.
        destruct Hcase as [[_ ->]|(T & _ & _ & ->)]; [done|].
        destruct (forallb _ items); [|done].
        simpl. rewrite andb_true_r. exact (every_type_pair_set b T items Hb). }
      simpl. rewrite (P_position _ (YAMLSet b items)) by done. rewrite Hb. simpl.
      apply forM_Ok in Hf. clear Hcase Hitems Hb.
      induction Hf as [|p p' l l' Hp Hl IH]; [done|].
      simpl in Hall. apply andb_true_iff in Hall as [Hp1 Hl1].
      simpl. rewrite (IHp _ _ Hp Hp1). simpl. by apply IH.
  - intros p p' Hv Hp. rewrite visit_pair_S in Hv.
    destruct (Yaml.visit_ fuel V (key p)) as [k| |] eqn:Hk; try discriminate.
    destruct (Yaml.visit_ fuel V (value p)) as [x| |] eqn:Hx; try discriminate.
    simpl in Hv. injection Hv as <-. simpl.
    apply andb_true_iff in Hp as [Hp1 Hp2].
    rewrite (IHn _ _ Hk Hp1), (IHn _ _ Hx Hp2). reflexivity.
Qed.

Lemma transform_every doc doc' :
  transform doc customTags = Ok doc' ->
  doc_every P doc = true -> doc_every P doc' = true.
Proof.
  unfold transform, transform_fuel, Yaml.visit, doc_every.
  destruct (contents doc) as [n|] eqn:Hc.
  - destruct (Yaml.visit_ _ _ n) as [n'| |] eqn:Hv; try discriminate.
    simpl. intros [= <-]. simpl. apply (proj1 (visit_every_both _) _ _ Hv).
  - intros [= <-]. rewrite Hc. done.
Qed.

End Positions.

(** ** Stripping the namespace *)

Lemma strip_prefix_app pat s : JS.strip_prefix pat (pat +:+ s) = Some s.
Proof.
  induction pat as [|c pat IH]; simpl; [by destruct s|].
  rewrite Ascii.eqb_refl. exact IH.
Qed.

Lemma replace_at_start pat s : JS.replace pat EmptyString (pat +:+ s) = s.
Proof.
  destruct (pat +:+ s) eqn:E; simpl.
  - pose proof (strip_prefix_app pat s) as H. rewrite E in H.
    destruct pat; simpl in *; [|discriminate]. injection H as <-. reflexivity.
  - rewrite <- E, strip_prefix_app. reflexivity.
Qed.

Lemma replace_not_included pat rep s :
  JS.includes pat s = false -> JS.replace pat rep s = s.
Proof.
  induction s as [|c s IH]; simpl.
  - destruct (JS.strip_prefix pat EmptyString); [discriminate | reflexivity].
  - destruct (JS.strip_prefix pat (String c s)); [discriminate|].
    intros H. by rewrite IH.
Qed.

Lemma append_assoc' (s t u : string) : (s +:+ t) +:+ u = s +:+ t +:+ u.
Proof.
  induction s as [|c s IH]; [reflexivity|].
  change (String c ((s +:+ t) +:+ u) = String c (s +:+ t +:+ u)). by rewrite IH.
Qed.

Lemma strip_prefix_None_ext pat s t :
  JS.strip_prefix pat s = None -> String.length pat <= String.length s ->
  JS.strip_prefix pat (s +:+ t) = None.
Proof.
  revert s. induction pat as [|a pat IH]; intros [|c s]; simpl; try discriminate; try lia.
  destruct (Ascii.eqb a c); [|reflexivity].
  intros H Hl. apply IH; [exact H | lia].
Qed.

Lemma length_append' (s t : string) :
  String.length (s +:+ t) = String.length s + String.length t.
Proof.
  induction s as [|c s IH]; [reflexivity|].
  change (S (String.length (s +:+ t)) = S (String.length s) + String.length t).
  by rewrite IH.
Qed.

Lemma replace_at_start_with pat rep s : JS.replace pat rep (pat +:+ s) = rep +:+ s.
Proof.
  destruct (pat +:+ s) eqn:E; simpl.
  - pose proof (strip_prefix_app pat s) as H. rewrite E in H.
    destruct pat; simpl in *; [|discriminate]. injection H as <-. reflexivity.
  - rewrite <- E, strip_prefix_app. reflexivity.
Qed.

(** Only the first occurrence of the pattern is replaced: when the pattern
    [pat], ending in the character [z], does not occur before the place
    where [pre] ends, it is the occurrence right after [pre] which goes. *)
Lemma replace_first pat0 z rep pre post :
  JS.includes (pat0 +:+ String z EmptyString) (pre +:+ pat0) = false ->
  JS.replace (pat0 +:+ String z EmptyString) rep
             (pre +:+ (pat0 +:+ String z EmptyString) +:+ post)
  = pre +:+ rep +:+ post.
Proof.
  set (pat := pat0 +:+ String z EmptyString).
  induction pre as [|c pre IH]; intros H.
  - exact (replace_at_start_with pat rep post).
  - change (String c pre +:+ pat0) with (String c (pre +:+ pat0)) in H.
    simpl in H.
    destruct (JS.strip_prefix pat (String c (pre +:+ pat0))) eqn:Es; [discriminate|].
    change (String c pre +:+ pat +:+ post) with (String c (pre +:+ pat +:+ post)).
    simpl.
    assert (JS.strip_prefix pat (String c (pre +:+ pat +:+ post)) = None) as ->.
    { unfold pat at 2. rewrite (append_assoc' pat0 (String z EmptyString) post).
      rewrite <- (append_assoc' pre pat0 (String z EmptyString +:+ post)).
      change (String c ((pre +:+ pat0) +:+ String z EmptyString +:+ post))
        with (String c (pre +:+ pat0) +:+ String z EmptyString +:+ post).
      apply strip_prefix_None_ext; [exact Es|].
      unfold pat. change (String.length (String c (pre +:+ pat0)))
        with (S (String.length (pre +:+ pat0))).
      rewrite !length_append'. simpl. lia. }
    rewrite (IH H). reflexivity.
Qed.

Lemma replace_first_app rep pre post :
  JS.includes "!app:" (pre +:+ "!app") = false ->
  JS.replace "!app:" rep (pre +:+ "!app:" +:+ post) = pre +:+ rep +:+ post.
Proof. exact (replace_first "!app" ":" rep pre post). Qed.

(** ** The claims about [transform] *)

(** C1 as stated fails.  The scalar [!foo:Bar baz] carries a tag that no
    declaration of [customTags] declares.  The map that replaces it holds the
    pair [$type] only, although an undeclared tag counts as ['scalar'] for
    the registry of the specification; and the value of [$type] is the whole
    tag [!foo:Bar], because only the literal prefix [!app:] is removed. *)
Lemma C1_counterexample :
  exists b doc',
    doc_at [InValue 0] Samples.foo_scalar = Some (Scalar b (VString "baz")) /\
    tag b = Some "!foo:Bar" /\
    transform Samples.foo_scalar [] = Ok doc' /\
    doc_at [InValue 0] doc' =
      Some (YAMLMap (mkBase None (range b) (srcToken b))
              [createPair (Scalar (mkBase None (range b) (srcToken b)) (VString "$type"))
                          (Scalar (mkBase None (range b) (srcToken b)) (VString "!foo:Bar"))]).
Proof.
  do 2 eexists. split; [reflexivity|]. split; [reflexivity|].
  split; [vm_compute; reflexivity|]. reflexivity.
Qed.

(** C1, amended.  Whenever [transform] returns a document, every scalar that
    carries a tag [T] is replaced, at its place in the parent structure, by
    a newly built map at the position of the scalar (same range, same source
    token, no tag), which is what the visit of the scalar by itself returns
    (the scalar raises no error).  The map holds the pair
    [($type, typeValue)], where [typeValue] is [T] without the first
    occurrence of the literal [!app:] (so [name] for the tag [!app:name],
    and [T] itself when [!app:] does not occur in it), and, exactly when the
    last declaration of [T] in [customTags] gives it the kind ['scalar'],
    also the pair [(value, copied)], where [copied] is the clone of the
    scalar with its tag cleared and its value kept.  The declaration [T]
    alone and the declaration [T scalar] give the kind ['scalar'], the
    declaration [T map] does not, and a tag that no declaration declares has
    no kind. *)
Theorem C1_tagged_scalar_replaced customTags doc doc' path b v T :
  transform doc customTags = Ok doc' ->
  doc_at path doc = Some (Scalar b v) ->
  tag b = Some T -> T <> EmptyString ->
  let here := mkBase None (range b) (srcToken b) in
  let copied := set_tag None (Yaml.clone (Scalar b v)) in
  exists (typeValue : string) (wrapped : bool),
    let newNode :=
      YAMLMap here
        (createPair (Scalar here (VString "$type")) (Scalar here (VString typeValue)) ::
         if wrapped then [createPair (Scalar here (VString "value")) copied] else []) in
    copied = Scalar here v /\
    doc_at path doc' = Some newNode /\
    transform_node customTags (Scalar b v) = Ok newNode /\
    (forall name, T = "!app:" +:+ name -> typeValue = name) /\
    (forall pre post, T = pre +:+ "!app:" +:+ post ->
       JS.includes "!app:" (pre +:+ "!app") = false -> typeValue = pre +:+ post) /\
    (JS.includes "!app:" T = false -> typeValue = T) /\
    (wrapped = true <->
       declared_kind <$> last (filter (fun d => declared_tag d = T) customTags)
         = Some "scalar") /\
    (Forall (fun d => d <> T /\ forall rest, d <> T +:+ " " +:+ rest) customTags ->
       wrapped = false) /\
    (JS.includes " " T = false ->
     forall l, (customTags = l ++ [T] -> wrapped = true) /\
               (customTags = l ++ [T +:+ " scalar"] -> wrapped = true) /\
               (customTags = l ++ [T +:+ " map"] -> wrapped = false)).
Proof.
  intros Htr Hat Ht Hne here copied.
  exists (stripped T), (bool_decide (tagMap customTags !! T = Some "scalar")).
  intros newNode. split; [reflexivity|]. split.
  { exact (transform_tagged_scalar_at customTags doc doc' path b v T Htr Hat Ht Hne). }
  split; [exact (transform_node_tagged_scalar customTags b v T Ht Hne)|].
  split; [intros name ->; apply replace_at_start|].
  split.
  { intros pre post -> Hfirst. unfold stripped.
    rewrite (replace_first_app EmptyString pre post Hfirst). reflexivity. }
  split; [intros Hno; by apply replace_not_included|].
  split; [by rewrite bool_decide_eq_true, tagMap_last_declaration|].
  split.
  { intros Hnot. apply bool_decide_eq_false.
    by rewrite (tagMap_not_declared customTags T Hnot). }
  intros Hblank l. split; [|split]; intros ->.
  - apply bool_decide_eq_true. by apply tagMap_bare_declaration.
  - apply bool_decide_eq_true.
    exact (tagMap_kind_declaration l T "scalar" Hblank).
  - apply bool_decide_eq_false. intros Hs.
    pose proof (tagMap_kind_declaration l T "map" Hblank) as Hm.
    change (tagMap (l ++ [T +:+ " map"]) !! T = Some "map") in Hm.
    rewrite Hm in Hs. discriminate.
Qed.

Lemma C1_witness :
  exists doc',
    transform Samples.app_scalar ["!app:Foo scalar"] = Ok doc' /\
    doc_at [InValue 0] doc' =
      Some (YAMLMap (mkBase None (Some (5, 17, 17)) (Some 3))
              [createPair (Scalar (mkBase None (Some (5, 17, 17)) (Some 3)) (VString "$type"))
                          (Scalar (mkBase None (Some (5, 17, 17)) (Some 3)) (VString "Foo"));
               createPair (Scalar (mkBase None (Some (5, 17, 17)) (Some 3)) (VString "value"))
                          (Scalar (mkBase None (Some (5, 17, 17)) (Some 3)) (VString "baz"))]).
Proof.
  eexists. split; [vm_compute; reflexivity|].
  destruct (C1_tagged_scalar_replaced ["!app:Foo scalar"] Samples.app_scalar _ [InValue 0]
              (Samples.at_ (Some "!app:Foo") 5 17 3) (VString "baz") "!app:Foo"
              ltac:(vm_compute; reflexivity) ltac:(reflexivity) ltac:(reflexivity)
              ltac:(discriminate))
    as (typeValue & wrapped & _ & Hat & _ & Hname & _ & _ & _ & _ & Hdecl).
  rewrite (Hname "Foo" eq_refl) in Hat.
  destruct (Hdecl eq_refl []) as (_ & Hscalar & _).
  rewrite (Hscalar eq_refl) in Hat. exact Hat.
Defined.




(** C3 as stated fails: the tag [!Ref] is declared nowhere in [customTags],
    and the map that replaces the scalar holds the [$type] pair only; the
    lookup in the registry yields [undefined], which is not ['scalar']. *)
Lemma C3_counterexample :
  exists b doc',
    Forall (fun d => declared_tag d <> "!Ref") [] /\
    doc_at [InValue 0] Samples.ref_scalar = Some (Scalar b (VString "foo")) /\
    tag b = Some "!Ref" /\
    transform Samples.ref_scalar [] = Ok doc' /\
    doc_at [InValue 0] doc' =
      Some (YAMLMap (mkBase None (range b) (srcToken b))
              [createPair (Scalar (mkBase None (range b) (srcToken b)) (VString "$type"))
                          (Scalar (mkBase None (range b) (srcToken b)) (VString "!Ref"))]).
Proof.
  do 2 eexists. split; [constructor|]. split; [reflexivity|]. split; [reflexivity|].
  split; [vm_compute; reflexivity|]. reflexivity.
Qed.

(** C3, amended.  For a scalar that carries a tag declared nowhere in
    [customTags], the registry has no entry, and the replacement map holds
    the [$type] pair only, without a [value] pair.  Visiting such a scalar
    raises no error. *)
Theorem C3_undeclared_scalar_tag customTags b v T :
  tag b = Some T -> T <> EmptyString ->
  Forall (fun d => declared_tag d <> T) customTags ->
  tagMap customTags !! T = None /\
  transform_node customTags (Scalar b v) =
    Ok (YAMLMap (mkBase None (range b) (srcToken b))
          [createPairFrom (Scalar b v) "$type" (AString (stripped T))]) /\
  forall doc doc' path,
    transform doc customTags = Ok doc' ->
    doc_at path doc = Some (Scalar b v) ->
    doc_at path doc' =
      Some (YAMLMap (mkBase None (range b) (srcToken b))
              [createPairFrom (Scalar b v) "$type" (AString (stripped T))]).
Proof.
  intros Ht Hne Hun. pose proof (tagMap_undeclared customTags T Hun) as Hnone.
  assert (replacement (tagMap customTags) b v T =
          YAMLMap (mkBase None (range b) (srcToken b))
            [createPairFrom (Scalar b v) "$type" (AString (stripped T))]) as Hrep.
  { unfold replacement. rewrite Hnone. reflexivity. }
  split; [exact Hnone|]. split.
  - rewrite <- Hrep. by apply transform_node_tagged_scalar.
  - intros doc doc' path Htr Hat. rewrite <- Hrep.
    exact (transform_tagged_scalar_at customTags doc doc' path b v T Htr Hat Ht Hne).
Qed.

Lemma C3_witness :
  transform_node ["!Sub scalar"; "!Include"]
    (Scalar (Samples.at_ (Some "!Ref") 5 13 3) (VString "foo")) =
  Ok (YAMLMap (mkBase None (Some (5, 13, 13)) (Some 3))
        [createPair (Scalar (mkBase None (Some (5, 13, 13)) (Some 3)) (VString "$type"))
                    (Scalar (mkBase None (Some (5, 13, 13)) (Some 3)) (VString "!Ref"))]).
Proof.
  refine (proj1 (proj2 (C3_undeclared_scalar_tag ["!Sub scalar"; "!Include"]
                          (Samples.at_ (Some "!Ref") 5 13 3) (VString "foo") "!Ref" _ _ _))).
  - reflexivity.
  - discriminate.
  - repeat constructor; discriminate.
Defined.

(** C4 as stated fails: only the literal [!app:] is removed, so a tag with
    another namespace keeps it; for the tag [!foo:Bar] the [$type] value is
    [!foo:Bar], not [Bar]. *)
Lemma C4_counterexample :
  exists doc' b,
    transform Samples.foo_bar [] = Ok doc' /\
    doc_at [InKey 1] doc' = Some (Scalar b (VString "$type")) /\
    doc_at [InValue 1] doc' = Some (Scalar b (VString "!foo:Bar")) /\
    VString "!foo:Bar" <> VString "Bar".
Proof.
  do 2 eexists. split; [vm_compute; reflexivity|].
  split; [reflexivity|]. split; [reflexivity|]. discriminate.
Qed.

(** C4, amended.  The discriminator value of a tagged node is the tag with
    the first occurrence of the literal [!app:] removed: for every tag of
    the form [!app:<name>] the [$type] value is [<name>], and a tag in which
    [!app:] does not occur is used as it is.  The nodes that are given a
    discriminator are the scalars, the maps of the class [YAMLMap], and the
    [!!set] maps that have no pair with the key [$type] yet. *)
Theorem C4_discriminator_value customTags doc doc' path n T :
  transform doc customTags = Ok doc' ->
  doc_at path doc = Some n ->
  gets_discriminator n = true ->
  tag (base n) = Some T -> T <> EmptyString ->
  (exists b' items' p,
     doc_at path doc' = Some (match n with
                              | YAMLSet _ _ => YAMLSet b' items'
                              | _ => YAMLMap b' items'
                              end) /\
     In p items' /\
     key p = Scalar (mkBase None (range (base n)) (srcToken (base n))) (VString "$type") /\
     value p = Scalar (mkBase None (range (base n)) (srcToken (base n)))
                 (VString (stripped T))) /\
  (forall name, T = "!app:" +:+ name -> stripped T = name) /\
  (forall pre post, T = pre +:+ "!app:" +:+ post ->
     JS.includes "!app:" (pre +:+ "!app") = false -> stripped T = pre +:+ post) /\
  (JS.includes "!app:" T = false -> stripped T = T).
Proof.
  intros Htr Hat Hkind Ht Hne. split; [|split; [|split]].
  - destruct n as [b v | b items | b items | b s | b items]; try discriminate; simpl in Ht.
    + pose proof (transform_tagged_scalar_at customTags doc doc' path b v T Htr Hat Ht Hne)
        as Hat'.
      unfold replacement in Hat'. do 3 eexists. split; [exact Hat'|].
      split; [left; reflexivity|]. split; reflexivity.
    + destruct (transform_tagged_map_at customTags doc doc' path b items T Htr Hat Ht Hne)
        as (items' & Hat' & _).
      do 3 eexists. split; [exact Hat'|].
      split; [apply in_or_app; right; left; reflexivity|]. split; reflexivity.
    + destruct (transform_tagged_set_at customTags doc doc' path b items T Htr Hat Ht Hne)
        as (items' & Hat' & _).
      simpl in Hkind. rewrite Hkind in Hat'.
      do 3 eexists. split; [exact Hat'|].
      split; [apply in_or_app; right; left; reflexivity|]. split; reflexivity.
  - intros name ->. apply replace_at_start.
  - intros pre post -> Hfirst. unfold stripped.
    rewrite (replace_first_app EmptyString pre post Hfirst). reflexivity.
  - apply replace_not_included.
Qed.

Lemma C4_witness :
  exists doc' b' items' p,
    transform Samples.data_block [] = Ok doc' /\
    doc_at [] doc' = Some (YAMLMap b' items') /\ In p items' /\
    key p = Scalar (mkBase None (Some (15, 24, 24)) (Some 1)) (VString "$type") /\
    value p = Scalar (mkBase None (Some (15, 24, 24)) (Some 1)) (VString "DataBlock").
Proof.
  eexists.
  destruct (C4_discriminator_value [] Samples.data_block
              (mkDocument (Some (YAMLMap (Samples.at_ (Some "!app:DataBlock") 15 24 1)
                 [createPair (Samples.plain "abc" 15 18 2) (Samples.plain "def" 20 23 3);
                  type_pair (Samples.at_ (Some "!app:DataBlock") 15 24 1) "!app:DataBlock"])))
              []
              (YAMLMap (Samples.at_ (Some "!app:DataBlock") 15 24 1)
                 [createPair (Samples.plain "abc" 15 18 2) (Samples.plain "def" 20 23 3)])
              "!app:DataBlock")
    as ((b' & items' & p & Hat & Hin & Hk & Hv) & _ & _).
  - vm_compute; reflexivity.
  - reflexivity.
  - reflexivity.
  - reflexivity.
  - discriminate.
  - exists b', items', p. split; [vm_compute; reflexivity|]. auto.
Defined.

Lemma position_depends_on_range n m : position n = position m -> has_range n = has_range m.
Proof. unfold position, has_range. intros [= -> _]. reflexivity. Qed.

Lemma position_depends_on_srcToken n m :
  position n = position m -> has_srcToken n = has_srcToken m.
Proof. unfold position, has_srcToken. intros [= _ ->]. reflexivity. Qed.

(** C5. Every node that normalization builds has the range and the source
    token of the node it replaces or augments: the key node of a created
    pair and its value node when the value was not a node already
    ([createPairFrom]); the map that replaces a tagged scalar together with
    the keys and values of its pairs; the discriminator pair pushed to a
    tagged map, and to a tagged [!!set] map when one is pushed.  So no node
    without a position is introduced: if every node of the input has a range
    (a source token), every node of the output has one. *)
Theorem C5_positions customTags doc doc' :
  transform doc customTags = Ok doc' ->
  (forall node k u,
     position (key (createPairFrom node k u)) = position node /\
     match u with
     | AString _ => position (value (createPairFrom node k u)) = position node
     | ANode x => value (createPairFrom node k u) = x
     end) /\
  (forall path b v T,
     doc_at path doc = Some (Scalar b v) -> tag b = Some T -> T <> EmptyString ->
     exists b' items',
       doc_at path doc' = Some (YAMLMap b' items') /\
       position (YAMLMap b' items') = position (Scalar b v) /\
       Forall (fun p => position (key p) = position (Scalar b v) /\
                        position (value p) = position (Scalar b v)) items') /\
  (forall path b items T,
     doc_at path doc = Some (YAMLMap b items) -> tag b = Some T -> T <> EmptyString ->
     exists items' p,
       doc_at path doc' = Some (YAMLMap b (items' ++ [p])) /\
       length items' = length items /\
       position (key p) = position (YAMLMap b items) /\
       position (value p) = position (YAMLMap b items)) /\
  (forall path b items T,
     doc_at path doc = Some (YAMLSet b items) -> tag b = Some T -> T <> EmptyString ->
     exists items' pushed,
       doc_at path doc' = Some (YAMLSet b (items' ++ pushed)) /\
       length items' = length items /\
       length pushed <= 1 /\
       Forall (fun p => position (key p) = position (YAMLSet b items) /\
                        position (value p) = position (YAMLSet b items)) pushed) /\
  (doc_every has_range doc = true -> doc_every has_range doc' = true) /\
  (doc_every has_srcToken doc = true -> doc_every has_srcToken doc' = true).
Proof.
  intros Htr. split; [|split; [|split; [|split; [|split]]]].
  - intros node k u. split; destruct u; reflexivity.
  - intros path b v T Hat Ht Hne.
    pose proof (transform_tagged_scalar_at customTags doc doc' path b v T Htr Hat Ht Hne)
      as Hat'.
    unfold replacement in Hat'. do 2 eexists. split; [exact Hat'|]. split; [reflexivity|].
    destruct (bool_decide _); repeat constructor.
  - intros path b items T Hat Ht Hne.
    destruct (transform_tagged_map_at customTags doc doc' path b items T Htr Hat Ht Hne)
      as (items' & Hat' & _ & Hall).
    exists items', (type_pair b T). split; [exact Hat'|].
    split; [symmetry; exact (Forall2_length _ _ _ Hall)|]. split; reflexivity.
  - intros path b items T Hat Ht Hne.
    destruct (transform_tagged_set_at customTags doc doc' path b items T Htr Hat Ht Hne)
      as (items' & Hat' & Hall).
    do 2 eexists. split; [exact Hat'|].
    split; [symmetry; exact (Forall2_length _ _ _ Hall)|].
    destruct (forallb _ items); simpl; split; try lia; repeat constructor.
  - exact (transform_every customTags has_range position_depends_on_range doc doc' Htr).
  - exact (transform_every customTags has_srcToken position_depends_on_srcToken doc doc' Htr).
Qed.

Lemma C5_witness :
  exists doc',
    transform Samples.nested ["!app:Inner scalar"] = Ok doc' /\
    doc_every has_range doc' = true /\ doc_every has_srcToken doc' = true.
Proof.
  eexists. split; [vm_compute; reflexivity|].
  destruct (C5_positions ["!app:Inner scalar"] Samples.nested _ ltac:(vm_compute; reflexivity))
    as (_ & _ & _ & _ & Hr & Hs).
  split; [apply Hr | apply Hs]; reflexivity.
Defined.

(** C6. On a tree in which no node carries a tag, [transform] returns the
    tree it was given: same structure, same positions. *)
Theorem C6_untagged_identity customTags doc :
  doc_every no_tag doc = true -> transform doc customTags = Ok doc.
Proof.
  unfold doc_every, transform, transform_fuel, Yaml.visit, doc_fuel.
  destruct doc as [[n|]]; simpl; [|reflexivity].
  intros H. rewrite (visit_untagged customTags n H) by lia. reflexivity.
Qed.

Lemma C6_witness : transform Samples.plain_doc ["!Ref scalar"] = Ok Samples.plain_doc.
Proof. apply C6_untagged_identity. reflexivity. Defined.

(** ** The store: the clone and the original *)

(** The map that the callback returns on the store reads back as the
    replacement map of the tree model. *)
Lemma Heap_transform_Scalar_refines tm (h : list Heap.object) node b v T :
  h !! node = Some (Heap.OScalar b v) -> tag b = Some T -> T <> EmptyString ->
  exists newNode h',
    Heap.transform_Scalar tm node h = Ok (Some newNode, h') /\
    Heap.reify 3 h' newNode = Some (replacement tm b v T) /\
    transform_Scalar tm (Scalar b v) = Ok (Scalar b v, Some (replacement tm b v T)).
Proof.
  intros H Ht Hne. do 2 eexists.
  split; [exact (HeapFacts.transform_Scalar_run h tm node b v T H Ht Hne)|].
  split; [|by apply transform_Scalar_tagged].
  unfold replacement. destruct (bool_decide (tm !! T = Some "scalar")).
  - cbn [Heap.reify]. rewrite <- (Nat.add_0_r (length h)) at 1.
    rewrite HeapFacts.lookup_new. cbn [lookup list_lookup mapM Heap.reify_pair].
    rewrite (HeapFacts.lookup_new h _ 3), (HeapFacts.lookup_new h _ 6).
    cbn [lookup list_lookup Heap.reify].
    rewrite (HeapFacts.lookup_new h _ 1), (HeapFacts.lookup_new h _ 2),
      (HeapFacts.lookup_new h _ 4), (HeapFacts.lookup_new h _ 5).
    reflexivity.
  - cbn [Heap.reify]. rewrite <- (Nat.add_0_r (length h)) at 1.
    rewrite HeapFacts.lookup_new. cbn [lookup list_lookup mapM Heap.reify_pair].
    rewrite (HeapFacts.lookup_new h _ 3).
    cbn [lookup list_lookup Heap.reify].
    rewrite (HeapFacts.lookup_new h _ 1), (HeapFacts.lookup_new h _ 2).
    reflexivity.
Qed.

(** C10. When a tagged scalar that the registry maps to ['scalar'] is
    normalized, the clone is an object of its own: clearing its tag leaves
    the original object as it was, tag included.  The clone, stored as the
    value of the [value] pair of the new map, has no tag, and its value,
    range and source token are those of the original.  No object that existed
    before is written to. *)
Theorem C10_clone_leaves_original tm (h : list Heap.object) node b v T :
  h !! node = Some (Heap.OScalar b v) ->
  tag b = Some T -> T <> EmptyString ->
  tm !! T = Some "scalar" ->
  exists newNode typePair p2 keyNode copied h',
    Heap.transform_Scalar tm node h = Ok (Some newNode, h') /\
    h' !! newNode =
      Some (Heap.OMap (mkBase None (range b) (srcToken b)) [typePair; p2]) /\
    h' !! p2 = Some (Heap.OPair keyNode copied) /\
    h' !! keyNode =
      Some (Heap.OScalar (mkBase None (range b) (srcToken b)) (VString "value")) /\
    copied <> node /\
    h' !! copied = Some (Heap.OScalar (mkBase None (range b) (srcToken b)) v) /\
    h' !! node = Some (Heap.OScalar b v) /\
    (forall l o, h !! l = Some o -> h' !! l = Some o).
Proof.
  intros H Ht Hne Hscalar.
  pose proof (HeapFacts.transform_Scalar_run h tm node b v T H Ht Hne) as Hrun.
  rewrite (bool_decide_eq_true_2 _ Hscalar) in Hrun.
  exists (length h), (length h + 3), (length h + 6), (length h + 5), (length h + 4).
  eexists. split; [exact Hrun|].
  split. { rewrite <- (Nat.add_0_r (length h)) at 1. by rewrite HeapFacts.lookup_new. }
  split; [by rewrite HeapFacts.lookup_new|].
  split; [by rewrite HeapFacts.lookup_new|].
  split. { apply lookup_lt_Some in H. lia. }
  split; [by rewrite HeapFacts.lookup_new|].
  split; [by apply lookup_app_l_Some|].
  intros l o Hl. by apply lookup_app_l_Some.
Qed.

Lemma C10_witness :
  exists newNode h',
    Heap.transform_Scalar (tagMap ["!Ref"]) 0
      [Heap.OScalar (Samples.at_ (Some "!Ref") 5 13 3) (VString "foo")]
    = Ok (Some newNode, h') /\
    h' !! 0 = Some (Heap.OScalar (Samples.at_ (Some "!Ref") 5 13 3) (VString "foo")) /\
    h' !! 5 = Some (Heap.OScalar (mkBase None (Some (5, 13, 13)) (Some 3)) (VString "foo")).
Proof.
  destruct (C10_clone_leaves_original (tagMap ["!Ref"])
              [Heap.OScalar (Samples.at_ (Some "!Ref") 5 13 3) (VString "foo")] 0
              (Samples.at_ (Some "!Ref") 5 13 3) (VString "foo") "!Ref")
    as (newNode & typePair & p2 & keyNode & copied & h' & Hrun & _ & _ & _ & _ & _ & Horig & _).
  - reflexivity.
  - reflexivity.
  - discriminate.
  - vm_compute; reflexivity.
  - exists newNode, h'. split; [exact Hrun|]. split; [exact Horig|].
    vm_compute in Hrun. injection Hrun as _ <-. reflexivity.
Defined.

(** ** The quick-fix value inferencer *)

(** C7. For the literal ["false"] in double quotes the inferencer yields
    exactly one action, titled [Convert to boolean], with a single edit that
    replaces exactly the range of the literal by [false].  In the document of
    the test, [analytics: "false"], this range runs from column 11 to column
    18: it covers the literal with its quotes, and the key, the colon and the
    blank lie before it. *)
Theorem C7_convert_false uri range :
  QuickFix.inferBoolean QuickFix.default_forms uri
    (QuickFix.dquote +:+ "false" +:+ QuickFix.dquote) range =
    [QuickFix.mkAction "Convert to boolean" {[ uri := [QuickFix.replace range "false"] ]}] /\
  (forall act, In act (QuickFix.inferBoolean QuickFix.default_forms uri
                         (QuickFix.dquote +:+ "false" +:+ QuickFix.dquote) range) ->
     QuickFix.changes act !! uri = Some [QuickFix.replace range "false"]) /\
  QuickFix.getText QuickFix.analytics_false (QuickFix.Range_create 0 11 0 18) =
    QuickFix.dquote +:+ "false" +:+ QuickFix.dquote /\
  QuickFix.getText QuickFix.analytics_false (QuickFix.Range_create 0 0 0 11) = "analytics: " /\
  String.length QuickFix.analytics_false = 18.
Proof.
  split; [reflexivity|]. split; [|repeat split; reflexivity].
  intros act [<-|[]]. apply lookup_singleton_eq.
Qed.

(** C8. A literal that matches no recognized truthy or falsy form, or that
    matches the forms of both actions, yields no action; the inferencer is a
    total function into lists of actions, so it raises nothing. *)
Theorem C8_no_action forms uri raw range :
  (QuickFix.matches (QuickFix.truthy forms) raw = false /\
   QuickFix.matches (QuickFix.falsy forms) raw = false) \/
  (QuickFix.matches (QuickFix.truthy forms) raw = true /\
   QuickFix.matches (QuickFix.falsy forms) raw = true) ->
  QuickFix.inferBoolean forms uri raw range = [].
Proof.
  unfold QuickFix.inferBoolean. intros [[-> ->]|[-> ->]]; reflexivity.
Qed.

Lemma C8_witness :
  QuickFix.inferBoolean QuickFix.default_forms "file:///test.yaml" "maybe"
    (QuickFix.Range_create 0 11 0 16) = [] /\
  QuickFix.inferBoolean (QuickFix.mkForms ["yes"; "on"] ["off"; "ON"]) "file:///test.yaml" "on"
    (QuickFix.Range_create 0 11 0 13) = [].
Proof.
  split; apply C8_no_action; [left | right]; split; reflexivity.
Defined.

(** ** When [transform] returns *)

Section Transform_returns.
Variable customTags : list string.
Local Abbreviation V := (transform_visitor customTags).

Lemma visit_Ok_no_collision_both fuel :
  (forall n n', Yaml.visit_ fuel V n = Ok n' -> every no_collision n = true) /\
  (forall p p', Yaml.visit_pair fuel V p = Ok p' ->
     every no_collision (key p) && every no_collision (value p) = true).
Proof.
  induction fuel as [|fuel [IHn IHp]]; [split; discriminate|].
  split.
  - intros n n' Hv.
    destruct n as [b v | b items | b items | b s | b items]; try reflexivity.
    + apply visit_map_Ok in Hv as (extra & items' & -> & Hf & Hcase).
      rewrite forM_app in Hf.
      destruct (forM _ items) as [items1| |] eqn:Hitems; try discriminate.
      simpl. apply andb_true_iff. split.
      * destruct Hcase as [[-> _]|(T & _ & _ & _ & ->)]; [reflexivity|].
        apply orb_true_r.
      * apply forM_Ok in Hitems. clear Hf Hcase.
        induction Hitems as [|p p' l l' Hp Hl IH]; [done|].
        simpl. rewrite (IHp _ _ Hp). exact IH.
    + rewrite visit_seq in Hv.
      destruct (forM _ items) as [items'| |] eqn:Hf; try discriminate.
      simpl. apply forM_Ok in Hf. clear Hv.
      induction Hf as [|x x' l l' Hx Hl IH]; [done|].
      simpl. rewrite (IHn _ _ Hx). exact IH.
    + apply visit_set_Ok in Hv as (extra & items' & -> & Hf & Hcase).
      rewrite forM_app in Hf.
      destruct (forM _ items) as [items1| |] eqn:Hitems; try discriminate.
      simpl. apply forM_Ok in Hitems. clear Hf Hcase.
      induction Hitems as [|p p' l l' Hp Hl IH]; [done|].
      simpl. rewrite (IHp _ _ Hp). exact IH.
  - intros p p' Hv. rewrite visit_pair_S in Hv.
    destruct (Yaml.visit_ fuel V (key p)) as [k| |] eqn:Hk; try discriminate.
    destruct (Yaml.visit_ fuel V (value p)) as [x| |] eqn:Hx; try discriminate.
    rewrite (IHn _ _ Hk), (IHn _ _ Hx). reflexivity.
Qed.

Lemma visit_no_collision_Ok n :
  every no_collision n = true -> exists n', transform_node customTags n = Ok n'.
Proof.
  intros Hn. destruct (transform_node customTags n) as [n'|msg|] eqn:Hv; [by exists n'| |].
  - exfalso. revert msg Hv. unfold transform_node.
    generalize (enough_fuel n) as fuel. intros fuel. revert n Hn.
    induction fuel as [fuel H] using lt_wf_ind.
    assert (forall f p msg, f < fuel ->
              every no_collision (key p) && every no_collision (value p) = true ->
              Yaml.visit_pair f V p <> Throw msg) as IHpair.
    { intros [|f] p msg Hlt Hp; [discriminate|]. rewrite visit_pair_S.
      apply andb_true_iff in Hp as [Hk Hx].
      destruct (Yaml.visit_ f V (key p)) as [k|m|] eqn:Ek; simpl; try discriminate.
      - destruct (Yaml.visit_ f V (value p)) as [x|m|] eqn:Ex; simpl; try discriminate.
        exfalso. eapply (H f); [lia | exact Hx | exact Ex].
      - exfalso. eapply (H f); [lia | exact Hk | exact Ek]. }
    intros n Hn msg Hv. destruct fuel as [|fuel]; [discriminate|].
    destruct n as [b v | b items | b items | b s | b items].
    + destruct (JS.truthy (tag b)) eqn:Htag.
      * destruct (truthy_inv _ Htag) as (T & Ht & Hne).
        rewrite visit_S in Hv.
        change (Yaml.callVisitor V (Scalar b v))
          with (transform_Scalar (tagMap customTags) (Scalar b v)) in Hv.
        rewrite (transform_Scalar_tagged _ b v T Ht Hne) in Hv. simpl in Hv.
        eapply (H fuel); [lia | | exact Hv].
        unfold replacement. destruct (bool_decide _); reflexivity.
      * rewrite visit_untagged_scalar in Hv by done. discriminate.
    + simpl in Hn. apply andb_true_iff in Hn as [Hb Hitems].
      assert (forall extra,
                forallb (fun p => every no_collision (key p) && every no_collision (value p))
                        extra = true ->
                forM (Yaml.visit_pair fuel V) (items ++ extra) <> Throw msg) as Hloop.
      { intros extra Hextra Hf. apply forM_Throw in Hf as (p & Hin & Hp).
        apply (IHpair fuel p msg); [lia | | exact Hp].
        apply in_app_or in Hin as [Hin|Hin].
        - rewrite forallb_forall in Hitems. by apply Hitems.
        - rewrite forallb_forall in Hextra. by apply Hextra. }
      destruct (JS.truthy (tag b)) eqn:Htag.
      * destruct (truthy_inv _ Htag) as (T & Ht & Hne).
        rewrite (visit_tagged_map _ fuel b items T Ht Hne) in Hv.
        simpl in Hb. rewrite Hb in Hv.
        destruct (forM _ (items ++ _)) as [?|m|] eqn:Hf; simpl in Hv; try discriminate.
        injection Hv as ->. by apply (Hloop [type_pair b T]).
      * rewrite visit_untagged_map in Hv by done.
        destruct (forM _ items) as [?|m|] eqn:Hf; simpl in Hv; try discriminate.
        injection Hv as ->. apply (Hloop []); [done|]. by rewrite app_nil_r.
    + rewrite visit_seq in Hv.
      destruct (forM _ items) as [?|m|] eqn:Hf; simpl in Hv; try discriminate.
      injection Hv as ->. apply forM_Throw in Hf as (x & Hin & Hx).
      simpl in Hn. rewrite forallb_forall in Hn.
      eapply (H fuel); [lia | by apply Hn | exact Hx].
    + rewrite visit_alias in Hv. discriminate.
    + simpl in Hn.
      assert (forall extra,
                forallb (fun p => every no_collision (key p) && every no_collision (value p))
                        extra = true ->
                forM (Yaml.visit_pair fuel V) (items ++ extra) <> Throw msg) as Hloop.
      { intros extra Hextra Hf. apply forM_Throw in Hf as (p & Hin & Hp).
        apply (IHpair fuel p msg); [lia | | exact Hp].
        apply in_app_or in Hin as [Hin|Hin].
        - rewrite forallb_forall in Hn. by apply Hn.
        - rewrite forallb_forall in Hextra. by apply Hextra. }
      destruct (JS.truthy (tag b)) eqn:Htag.
      * destruct (truthy_inv _ Htag) as (T & Ht & Hne).
        rewrite (visit_tagged_set _ fuel b items T Ht Hne) in Hv.
        destruct (forM _ (items ++ _)) as [?|m|] eqn:Hf; simpl in Hv; try discriminate.
        injection Hv as ->. revert Hf. apply Hloop.
        destruct (forallb (fun p => negb (is_type_key p)) items); reflexivity.
      * rewrite visit_untagged_set in Hv by done.
        destruct (forM _ items) as [?|m|] eqn:Hf; simpl in Hv; try discriminate.
        injection Hv as ->. apply (Hloop []); [done|]. by rewrite app_nil_r.
  - exfalso. by apply (visit_enough_fuel customTags n (enough_fuel n)).
Qed.

(** [transform] returns a document exactly when no map that carries a tag
    already has a pair with the key [$type]; otherwise it throws. *)
Lemma transform_returns_iff doc :
  (exists doc', transform doc customTags = Ok doc') <->
  doc_every no_collision doc = true.
Proof.
  unfold doc_every.
  split.
  - intros [doc' Htr].
    destruct (transform_Ok_inv customTags doc doc' Htr) as [[-> _]|(n & n' & -> & _ & Hn)];
      [done|].
    exact (proj1 (visit_Ok_no_collision_both _) _ _ Hn).
  - intros Hn. unfold transform, transform_fuel, Yaml.visit, doc_fuel.
    destruct (contents doc) as [n|] eqn:Hc; [|by exists doc].
    destruct (visit_no_collision_Ok n Hn) as (n' & Hv).
    unfold transform_node in Hv. rewrite Hv. simpl. eauto.
Qed.

End Transform_returns.

(** ** Worked examples *)

(** The document [!app:DataBlock\nabc: def\n] with no tag registered: the
    pairs of the output are [(abc, def)] and [($type, DataBlock)]. *)
Example transform_data_block :
  transform Samples.data_block [] =
  Ok (mkDocument (Some (YAMLMap (Samples.at_ (Some "!app:DataBlock") 15 24 1)
        [createPair (Samples.plain "abc" 15 18 2) (Samples.plain "def" 20 23 3);
         createPair (Scalar (mkBase None (Some (15, 24, 24)) (Some 1)) (VString "$type"))
                    (Scalar (mkBase None (Some (15, 24, 24)) (Some 1)) (VString "DataBlock"))]))).
Proof. vm_compute. reflexivity. Qed.

Example tagMap_bare : tagMap ["!Ref"; "!Sub map"] !! "!Ref" = Some "scalar".
Proof. vm_compute. reflexivity. Qed.

Example tagMap_kind : tagMap ["!Ref"; "!Sub map"] !! "!Sub" = Some "map".
Proof. vm_compute. reflexivity. Qed.

Example tagMap_last_wins : tagMap ["!Ref map"; "!Ref scalar"] !! "!Ref" = Some "scalar".
Proof. vm_compute. reflexivity. Qed.

Example tagMap_unknown : tagMap ["!Ref"; "!Sub map"] !! "!Other" = None.
Proof. vm_compute. reflexivity. Qed.

(** A scalar whose tag is declared with the kind [map] keeps its tag name
    only. *)
Example transform_map_kind :
  transform Samples.ref_scalar ["!Ref map"] = transform Samples.ref_scalar [].
Proof. vm_compute. reflexivity. Qed.

(** Positions are copied as they are: from a scalar built by hand without
    a range, the new nodes get none. *)
Example transform_unpositioned :
  transform Samples.unpositioned ["!Ref"] =
  Ok (mkDocument (Some (YAMLMap Yaml.fresh
        [createPair (Scalar Yaml.fresh (VString "$type")) (Scalar Yaml.fresh (VString "!Ref"));
         createPair (Scalar Yaml.fresh (VString "value")) (Scalar Yaml.fresh (VString "foo"))]))).
Proof. vm_compute. reflexivity. Qed.

(** The second test of the code-action suite: ['true'] in single quotes. *)
Example convert_true uri range :
  QuickFix.inferBoolean QuickFix.default_forms uri "'true'" range =
  [QuickFix.mkAction "Convert to boolean" {[ uri := [QuickFix.replace range "true"] ]}].
Proof. reflexivity. Qed.

Example convert_case uri range :
  QuickFix.inferBoolean QuickFix.default_forms uri "'TRUE'" range =
  [QuickFix.mkAction "Convert to boolean" {[ uri := [QuickFix.replace range "true"] ]}].
Proof. reflexivity. Qed.

(** A failure of [transform] is a failure of the conversion of the parsed
    document. *)
Example parsedDoc_failure :
  parsedDocToSingleYAMLDocument Samples.typed_block [0] [] = Throw "Key $type already set".
Proof. vm_compute. reflexivity. Qed.

(** A map with the tag [!!set] that already has the key [$type]: the [add]
    of a [YAMLSet] ignores the pair, nothing is thrown and the document
    comes out as it went in. *)
Example transform_typed_set : transform Samples.typed_set [] = Ok Samples.typed_set.
Proof. vm_compute. reflexivity. Qed.

(** A map with the tag [!!set] without the key [$type] gets the pair once;
    a second application leaves the document as it is. *)
Example transform_plain_set :
  exists doc',
    transform Samples.plain_set [] = Ok doc' /\
    doc_at [] doc' =
      Some (YAMLSet (Samples.at_ (Some "tag:yaml.org,2002:set") 6 9 1)
              [createPair (Samples.plain "a" 8 9 2) (Scalar (Samples.at_ None 9 9 3) VNull);
               createPair (Scalar (mkBase None (Some (6, 9, 9)) (Some 1)) (VString "$type"))
                          (Scalar (mkBase None (Some (6, 9, 9)) (Some 1))
                                  (VString "tag:yaml.org,2002:set"))]) /\
    transform doc' [] = Ok doc'.
Proof. eexists. split; [vm_compute; reflexivity|]. split; vm_compute; reflexivity. Qed.

(** * Further properties of the code *)

(** ** More on loops and on the traversal *)

Lemma forM_ext {A B} (f g : A -> result B) l :
  (forall x, f x = g x) -> forM f l = forM g l.
Proof.
  intros H. induction l as [|x l IH]; simpl; [reflexivity|]. by rewrite H, IH.
Qed.

Lemma visit_ext_both (v1 v2 : Yaml.visitor) fuel :
  (forall n, Yaml.callVisitor v1 n = Yaml.callVisitor v2 n) ->
  (forall n, Yaml.visit_ fuel v1 n = Yaml.visit_ fuel v2 n) /\
  (forall p, Yaml.visit_pair fuel v1 p = Yaml.visit_pair fuel v2 p).
Proof.
  intros Hcb. induction fuel as [|fuel [IHn IHp]]; [split; reflexivity|].
  split.
  - intros n. rewrite !visit_S, Hcb.
    destruct (Yaml.callVisitor v2 n) as [[n' [ctrl|]]| |]; simpl; auto.
    destruct n'; auto.
    + by rewrite (forM_ext _ _ _ IHp).
    + by rewrite (forM_ext _ _ _ IHn).
    + by rewrite (forM_ext _ _ _ IHp).
  - intros p. by rewrite !visit_pair_S, !IHn.
Qed.

Lemma every_impl (P Q : Node -> bool) n :
  (forall m, P m = true -> Q m = true) -> every P n = true -> every Q n = true.
Proof.
  intros HPQ.
  induction n as [b v | b items IH | b items IH | b s | b items IH] using Node_tree_ind;
    simpl; intros H; apply andb_true_iff in H as [Hn Hch];
    rewrite (HPQ _ Hn); simpl; try reflexivity.
  - rewrite List.Forall_forall in IH. apply forallb_forall. intros p Hin.
    rewrite forallb_forall in Hch. specialize (Hch p Hin).
    apply andb_true_iff in Hch as [Hk Hv]. destruct (IH p Hin) as [IHk IHv].
    by rewrite IHk, IHv.
  - rewrite List.Forall_forall in IH. apply forallb_forall. intros x Hin.
    rewrite forallb_forall in Hch. by apply IH, Hch.
  - rewrite List.Forall_forall in IH. apply forallb_forall. intros p Hin.
    rewrite forallb_forall in Hch. specialize (Hch p Hin).
    apply andb_true_iff in Hch as [Hk Hv]. destruct (IH p Hin) as [IHk IHv].
    by rewrite IHk, IHv.
Qed.

Lemma every_node_at (P : Node -> bool) path :
  forall n m, every P n = true -> node_at path n = Some m -> every P m = true.
Proof.
  induction path as [|st path IH]; intros n m Hn Hat.
  - simpl in Hat. by injection Hat as <-.
  - destruct st as [i|i|i]; simpl in Hat;
      destruct n as [b v | b items | b items | b s | b items]; try discriminate;
      destruct (items !! i) as [x|] eqn:Hi; try discriminate; simpl in Hat;
      simpl in Hn; apply andb_true_iff in Hn as [_ Hch];
      rewrite forallb_forall in Hch;
      apply list_elem_of_lookup_2, list_elem_of_In in Hi; specialize (Hch _ Hi).
    + apply andb_true_iff in Hch as [Hk _]. exact (IH _ _ Hk Hat).
    + apply andb_true_iff in Hch as [Hk _]. exact (IH _ _ Hk Hat).
    + apply andb_true_iff in Hch as [_ Hv]. exact (IH _ _ Hv Hat).
    + apply andb_true_iff in Hch as [_ Hv]. exact (IH _ _ Hv Hat).
    + exact (IH _ _ Hch Hat).
Qed.

Lemma every_here (P : Node -> bool) n : every P n = true -> P n = true.
Proof. destruct n; simpl; intros H; apply andb_true_iff in H; tauto. Qed.

Section Unmarked.
Variable customTags : list string.
Local Abbreviation V := (transform_visitor customTags).

(** A tree that is settled is left as it is. *)
Lemma visit_settled_id n :
  every settled n = true ->
  forall fuel, enough_fuel n <= fuel -> Yaml.visit_ fuel V n = Ok n.
Proof.
  unfold enough_fuel.
  induction n as [b v | b items IH | b items IH | b s | b items IH] using Node_tree_ind;
    intros Hun fuel Hfuel; simpl in Hun, Hfuel.
  - apply andb_true_iff in Hun as [Hb _]. apply negb_true_iff in Hb.
    destruct fuel as [|fuel]; [lia|]. by apply visit_untagged_scalar.
  - apply andb_true_iff in Hun as [Hb Hch]. apply negb_true_iff in Hb.
    destruct fuel as [|[|fuel]]; try lia.
    rewrite visit_untagged_map by done.
    rewrite forM_id; [reflexivity|].
    rewrite List.Forall_forall in IH. apply List.Forall_forall. intros p Hin.
    rewrite forallb_forall in Hch. specialize (Hch p Hin).
    apply andb_true_iff in Hch as [Hk Hv].
    destruct (IH p Hin) as [IHk IHv].
    destruct (height_key_le p items Hin).
    rewrite visit_pair_S, IHk, IHv by (done || lia). by destruct p.
  - destruct fuel as [|fuel]; try lia. rewrite visit_seq.
    rewrite forM_id; [reflexivity|].
    rewrite List.Forall_forall in IH. apply List.Forall_forall. intros x Hin.
    rewrite forallb_forall in Hun. specialize (Hun x Hin).
    pose proof (height_item_le x items Hin).
    apply IH; [done | done | lia].
  - destruct fuel as [|fuel]; try lia. reflexivity.
  - apply andb_true_iff in Hun as [Hb Hch].
    destruct fuel as [|[|fuel]]; try lia.
    assert (forM (Yaml.visit_pair (S fuel) V) items = Ok items) as Hloop.
    { apply forM_id.
      rewrite List.Forall_forall in IH. apply List.Forall_forall. intros p Hin.
      rewrite forallb_forall in Hch. specialize (Hch p Hin).
      apply andb_true_iff in Hch as [Hk Hv].
      destruct (IH p Hin) as [IHk IHv].
      destruct (height_key_le p items Hin).
      rewrite visit_pair_S, IHk, IHv by (done || lia). by destruct p. }
    destruct (JS.truthy (tag b)) eqn:Htag.
    + destruct (truthy_inv _ Htag) as (T & Ht & Hne).
      rewrite (visit_tagged_set _ _ b items T Ht Hne).
      simpl in Hb.
      assert (forallb (fun p => negb (is_type_key p)) items = false) as ->.
      { clear -Hb. induction items as [|p l IHl]; simpl in *; [discriminate|].
        destruct (is_type_key p); simpl in *; [reflexivity | by apply IHl]. }
      rewrite app_nil_r, Hloop. reflexivity.
    + rewrite visit_untagged_set by done. rewrite Hloop. reflexivity.
Qed.

Lemma unmarked_settled n : unmarked n = true -> settled n = true.
Proof. destruct n; simpl; try done. intros ->. reflexivity. Qed.

Lemma visit_unmarked n :
  every unmarked n = true ->
  forall fuel, enough_fuel n <= fuel -> Yaml.visit_ fuel V n = Ok n.
Proof.
  intros H. apply visit_settled_id. revert H. apply every_impl. exact unmarked_settled.
Qed.

Lemma transform_node_unmarked n :
  every unmarked n = true -> transform_node customTags n = Ok n.
Proof. intros H. apply visit_unmarked; [done | lia]. Qed.

Lemma is_discriminator_type_pair b T :
  tag b = Some T -> is_discriminator_of b (type_pair b T) = true.
Proof.
  intros Ht. unfold is_discriminator_of, type_pair. simpl. rewrite Ht. simpl.
  rewrite !bool_decide_eq_true_2 by reflexivity. reflexivity.
Qed.

Lemma every_normalized_replacement tm b v T :
  every normalized (replacement tm b v T) = true.
Proof. unfold replacement. destruct (bool_decide _); reflexivity. Qed.

Lemma every_map_untagged_replacement tm b v T :
  every map_untagged (replacement tm b v T) = true.
Proof. unfold replacement. destruct (bool_decide _); reflexivity. Qed.

(** What a visit leaves behind. *)
Lemma visit_normalized_both fuel :
  (forall n n', Yaml.visit_ fuel V n = Ok n' -> every normalized n' = true) /\
  (forall p p', Yaml.visit_pair fuel V p = Ok p' ->
     every normalized (key p') && every normalized (value p') = true).
Proof.
  induction fuel as [|fuel [IHn IHp]]; [split; discriminate|].
  split.
  - intros n n' Hv. destruct n as [b v | b items | b items | b s | b items].
    + destruct (JS.truthy (tag b)) eqn:Htag.
      * destruct (truthy_inv _ Htag) as (T & Ht & Hne).
        rewrite visit_S in Hv.
        change (Yaml.callVisitor V (Scalar b v))
          with (transform_Scalar (tagMap customTags) (Scalar b v)) in Hv.
        rewrite (transform_Scalar_tagged _ b v T Ht Hne) in Hv. simpl in Hv.
        exact (IHn _ _ Hv).
      * rewrite visit_untagged_scalar in Hv by done. injection Hv as <-.
        simpl. by rewrite Htag.
    + apply visit_map_Ok in Hv as (extra & items' & -> & Hf & Hcase).
      assert (forallb (fun p => every normalized (key p) && every normalized (value p))
                      items' = true) as Hch.
      { apply forM_Ok in Hf. clear Hcase.
        induction Hf as [|p p' l l' Hp Hl IH]; [done|].
        simpl. rewrite (IHp _ _ Hp). exact IH. }
      simpl. rewrite Hch, andb_true_r.
      destruct Hcase as [[-> _]|(T & Ht & Hne & -> & _)]; [reflexivity|].
      rewrite Ht, (truthy_Some T Hne). simpl.
      rewrite forM_app in Hf.
      destruct (forM _ items) as [items1| |]; try discriminate.
      simpl in Hf.
      destruct fuel as [|[|fuel]]; try discriminate.
      rewrite visit_type_pair in Hf. simpl in Hf. injection Hf as <-.
      rewrite last_snoc. by apply is_discriminator_type_pair.
    + rewrite visit_seq in Hv.
      destruct (forM _ items) as [items'| |] eqn:Hf; try discriminate.
      simpl in Hv. injection Hv as <-. simpl.
      apply forM_Ok in Hf.
      induction Hf as [|x x' l l' Hx Hl IH]; [done|].
      simpl. rewrite (IHn _ _ Hx). exact IH.
    + rewrite visit_alias in Hv. by injection Hv as <-.
    + apply visit_set_Ok in Hv as (extra & items' & -> & Hf & _).
      simpl. apply forM_Ok in Hf.
      induction Hf as [|p p' l l' Hp Hl IH]; [done|].
      simpl. rewrite (IHp _ _ Hp). exact IH.
  - intros p p' Hv. rewrite visit_pair_S in Hv.
    destruct (Yaml.visit_ fuel V (key p)) as [k| |] eqn:Hk; try discriminate.
    destruct (Yaml.visit_ fuel V (value p)) as [x| |] eqn:Hx; try discriminate.
    simpl in Hv. injection Hv as <-. simpl.
    rewrite (IHn _ _ Hk), (IHn _ _ Hx). reflexivity.
Qed.

(** When no map of the input has a tag, no callback acts on the output. *)
Lemma visit_unmarked_after_both fuel :
  (forall n n', Yaml.visit_ fuel V n = Ok n' ->
     every map_untagged n = true -> every unmarked n' = true) /\
  (forall p p', Yaml.visit_pair fuel V p = Ok p' ->
     every map_untagged (key p) && every map_untagged (value p) = true ->
     every unmarked (key p') && every unmarked (value p') = true).
Proof.
  induction fuel as [|fuel [IHn IHp]]; [split; discriminate|].
  split.
  - intros n n' Hv Hn. destruct n as [b v | b items | b items | b s | b items].
    + destruct (JS.truthy (tag b)) eqn:Htag.
      * destruct (truthy_inv _ Htag) as (T & Ht & Hne).
        rewrite visit_S in Hv.
        change (Yaml.callVisitor V (Scalar b v))
          with (transform_Scalar (tagMap customTags) (Scalar b v)) in Hv.
        rewrite (transform_Scalar_tagged _ b v T Ht Hne) in Hv. simpl in Hv.
        apply (IHn _ _ Hv). apply every_map_untagged_replacement.
      * rewrite visit_untagged_scalar in Hv by done. injection Hv as <-.
        simpl. by rewrite Htag.
    + simpl in Hn. apply andb_true_iff in Hn as [Hb Hitems].
      apply negb_true_iff in Hb.
      rewrite visit_untagged_map in Hv by done.
      destruct (forM _ items) as [items'| |] eqn:Hf; try discriminate.
      simpl in Hv. injection Hv as <-. simpl. rewrite Hb. simpl.
      apply forM_Ok in Hf.
      induction Hf as [|p p' l l' Hp Hl IH]; [done|].
      simpl in Hitems. apply andb_true_iff in Hitems as [Hp1 Hl1].
      simpl. rewrite (IHp _ _ Hp Hp1). by apply IH.
    + rewrite visit_seq in Hv.
      destruct (forM _ items) as [items'| |] eqn:Hf; try discriminate.
      simpl in Hv. injection Hv as <-. simpl in Hn |- *.
      apply forM_Ok in Hf.
      induction Hf as [|x x' l l' Hx Hl IH]; [done|].
      simpl in Hn. apply andb_true_iff in Hn as [Hx1 Hl1].
      simpl. rewrite (IHn _ _ Hx Hx1). by apply IH.
    + rewrite visit_alias in Hv. by injection Hv as <-.
    + simpl in Hn. apply andb_true_iff in Hn as [Hb Hitems].
      apply negb_true_iff in Hb.
      rewrite visit_untagged_set in Hv by done.
      destruct (forM _ items) as [items'| |] eqn:Hf; try discriminate.
      simpl in Hv. injection Hv as <-. simpl. rewrite Hb. simpl.
      apply forM_Ok in Hf.
      induction Hf as [|p p' l l' Hp Hl IH]; [done|].
      simpl in Hitems. apply andb_true_iff in Hitems as [Hp1 Hl1].
      simpl. rewrite (IHp _ _ Hp Hp1). by apply IH.
  - intros p p' Hv Hp. rewrite visit_pair_S in Hv.
    destruct (Yaml.visit_ fuel V (key p)) as [k| |] eqn:Hk; try discriminate.
    destruct (Yaml.visit_ fuel V (value p)) as [x| |] eqn:Hx; try discriminate.
    simpl in Hv. injection Hv as <-. simpl.
    apply andb_true_iff in Hp as [Hp1 Hp2].
    rewrite (IHn _ _ Hk Hp1), (IHn _ _ Hx Hp2). reflexivity.
Qed.





Lemma repeatable_no_collision n : repeatable n = true -> no_collision n = true.
Proof. destruct n; simpl; try done. intros ->. reflexivity. Qed.

End Unmarked.

Lemma is_discriminator_inv b p T :
  tag b = Some T -> is_discriminator_of b p = true -> p = type_pair b T.
Proof.
  intros Ht. unfold is_discriminator_of. rewrite Ht. simpl.
  destruct p as [[kb [k| | |]| | | |] [vb [v| | |]| | | |]]; simpl; try discriminate.
  intros H. repeat (apply andb_true_iff in H as [H ?]).
  repeat match goal with
         | E : bool_decide _ = true |- _ => apply bool_decide_eq_true_1 in E
         end.
  subst. reflexivity.
Qed.


(** A key [$type] without a tag is still there after the pairs have been
    normalized. *)
Lemma pairs_type_key_kept customTags items items' :
  Forall2 (fun p p' => transform_node customTags (key p) = Ok (key p') /\
                       transform_node customTags (value p) = Ok (value p'))
          items items' ->
  forallb type_key_untagged items = true ->
  forallb (fun p => negb (is_type_key p)) items = false ->
  existsb is_type_key items' = true.
Proof.
  induction 1 as [|p p' l l' [Hk _] _ IH]; simpl; [discriminate|].
  intros Hall Hex. apply andb_true_iff in Hall as [Hp1 Hl1].
  unfold type_key_untagged in Hp1.
  destruct (is_type_key p) eqn:Hkey; simpl in *.
  - assert (is_type_key p' = true) as ->; [|reflexivity].
    unfold is_type_key in *. destruct (key p) as [kb kv| | | |]; try discriminate.
    rewrite transform_node_untagged in Hk by (simpl; by rewrite Hp1).
    injection Hk as <-. exact Hkey.
  - rewrite (IH Hl1 Hex). apply orb_true_r.
Qed.

(** ** The outcome of [transform] *)


(** X2. The traversal comes to an end although [visit] visits every
    replacement node again: the map that replaces a tagged scalar is left
    as it is by its own visit (no discriminator is put on top of it), and
    beyond the depth [doc_fuel] the bound on the recursion has no effect on
    the result. *)
Theorem X2_traversal_terminates customTags doc fuel b v T :
  doc_fuel doc <= fuel ->
  transform_fuel fuel doc customTags = transform doc customTags /\
  transform doc customTags <> OutOfFuel /\
  transform_node customTags (replacement (tagMap customTags) b v T) =
    Ok (replacement (tagMap customTags) b v T).
Proof.
  intros Hfuel. split; [by apply transform_fuel_enough|].
  split; [apply transform_settles|].
  apply transform_node_unmarked. unfold replacement.
  destruct (bool_decide _); reflexivity.
Qed.

Lemma X2_witness :
  transform_fuel 100 Samples.nested ["!app:Inner"] = transform Samples.nested ["!app:Inner"].
Proof.
  refine (proj1 (X2_traversal_terminates ["!app:Inner"] Samples.nested 100
                   Yaml.fresh VNull "!x" _)).
  vm_compute. lia.
Defined.

(** X3. In every document that [transform] returns, no scalar carries a
    tag, and every map of the class [YAMLMap] that carries a tag has its
    discriminator pair [($type, stripped(tag))] as last pair.  A map with
    the tag [!!set] comes out with a pair whose key is [$type], unless a
    key [$type] of the input set was a scalar with a tag. *)
Theorem X3_output_shape customTags doc doc' path :
  transform doc customTags = Ok doc' ->
  (forall b v, doc_at path doc' = Some (Scalar b v) -> JS.truthy (tag b) = false) /\
  (forall b items T,
     doc_at path doc' = Some (YAMLMap b items) -> tag b = Some T -> T <> EmptyString ->
     exists items0, items = items0 ++ [type_pair b T]) /\
  (forall b items T,
     doc_at path doc = Some (YAMLSet b items) -> tag b = Some T -> T <> EmptyString ->
     forallb type_key_untagged items = true ->
     exists items',
       doc_at path doc' = Some (YAMLSet b items') /\ existsb is_type_key items' = true).
Proof.
  intros Htr.
  assert (forall m, doc_at path doc' = Some m -> normalized m = true) as Hnorm.
  { intros m Hat.
    destruct (transform_Ok_inv customTags doc doc' Htr) as [[Hc ->]|(n & n' & _ & Hc' & Hn)].
    - unfold doc_at in Hat. rewrite Hc in Hat. discriminate.
    - unfold doc_at in Hat. rewrite Hc' in Hat. simpl in Hat.
      apply every_here, (every_node_at normalized path n'); [|exact Hat].
      exact (proj1 (visit_normalized_both customTags _) _ _ Hn). }
  split; [|split].
  - intros b v Hat. apply Hnorm in Hat. simpl in Hat. by apply negb_true_iff.
  - intros b items T Hat Ht Hne. apply Hnorm in Hat. simpl in Hat.
    rewrite Ht, (truthy_Some T Hne) in Hat. simpl in Hat.
    destruct (last items) as [p|] eqn:Hlast; [|discriminate].
    apply last_Some in Hlast as [items0 ->].
    exists items0. by rewrite (is_discriminator_inv b p T Ht Hat).
  - intros b items T Hat Ht Hne Hkeys.
    destruct (transform_tagged_set_at customTags doc doc' path b items T Htr Hat Ht Hne)
      as (items' & Hat' & Hall).
    eexists. split; [exact Hat'|]. rewrite existsb_app.
    destruct (forallb (fun p => negb (is_type_key p)) items) eqn:Hnone.
    + simpl. apply orb_true_r.
    + by rewrite (pairs_type_key_kept customTags items items' Hall Hkeys Hnone).
Qed.

Lemma X3_witness :
  exists doc' items0,
    transform Samples.nested ["!app:Inner"] = Ok doc' /\
    doc_at [] doc' =
      Some (YAMLMap (Samples.at_ (Some "!app:Outer") 11 30 1)
              (items0 ++ [type_pair (Samples.at_ (Some "!app:Outer") 11 30 1) "!app:Outer"])).
Proof.
  eexists.
  destruct (proj1 (proj2 (X3_output_shape ["!app:Inner"] Samples.nested _ []
                     ltac:(vm_compute; reflexivity)))
              (Samples.at_ (Some "!app:Outer") 11 30 1) _ "!app:Outer"
              ltac:(reflexivity) ltac:(reflexivity) ltac:(discriminate))
    as [items0 Heq].
  exists items0. split; [vm_compute; reflexivity|].
  unfold doc_at. simpl. by rewrite <- Heq.
Defined.

(** X4. On documents in which no map carries a tag, [transform] always
    returns, and applying it again (with any registry) returns the
    normalized document unchanged: the replacement maps and the clones carry
    no tag. *)
Theorem X4_idempotent_without_tagged_maps customTags customTags' doc :
  doc_every map_untagged doc = true ->
  exists doc',
    transform doc customTags = Ok doc' /\ transform doc' customTags' = Ok doc'.
Proof.
  intros Hmaps.
  assert (doc_every no_collision doc = true) as Hc.
  { unfold doc_every in *. destruct (contents doc) as [n|]; [|done].
    apply (every_impl map_untagged); [|done].
    intros [b v | b items | b items | b s | b items]; simpl; try done.
    intros ->. reflexivity. }
  apply (transform_returns_iff customTags) in Hc as [doc' Htr].
  exists doc'. split; [done|].
  destruct (transform_Ok_inv customTags doc doc' Htr) as [[Hnone ->]|(n & n' & Hn & Hn' & Hv)].
  - unfold transform, transform_fuel, Yaml.visit. by rewrite Hnone.
  - unfold doc_every in Hmaps. rewrite Hn in Hmaps.
    pose proof (proj1 (visit_unmarked_after_both customTags _) _ _ Hv Hmaps) as Hun.
    unfold transform, transform_fuel, Yaml.visit, doc_fuel. rewrite Hn'.
    rewrite (visit_unmarked customTags' n' Hun) by lia.
    simpl. destruct doc'. simpl in Hn'. by rewrite Hn'.
Qed.

Lemma X4_witness :
  exists doc',
    transform Samples.ref_scalar ["!Ref"] = Ok doc' /\ transform doc' [] = Ok doc'.
Proof. apply X4_idempotent_without_tagged_maps. reflexivity. Defined.

(** X5. Nodes for which the visitor has no callback, or on which the
    callback does nothing, keep their kind, tag, range and source token and
    the number of their children, and every child is normalized in turn: a
    sequence gets no discriminator even when it carries a tag, an alias is
    left as it is, and so is the pair list of a map without a tag. *)
Theorem X5_nodes_without_callback customTags doc doc' path :
  transform doc customTags = Ok doc' ->
  (forall b items,
     doc_at path doc = Some (YAMLSeq b items) ->
     exists items',
       doc_at path doc' = Some (YAMLSeq b items') /\
       Forall2 (fun x x' => transform_node customTags x = Ok x') items items') /\
  (forall b s, doc_at path doc = Some (Alias b s) -> doc_at path doc' = Some (Alias b s)) /\
  (forall b items,
     doc_at path doc = Some (YAMLMap b items) -> JS.truthy (tag b) = false ->
     exists items',
       doc_at path doc' = Some (YAMLMap b items') /\
       Forall2 (fun p p' => transform_node customTags (key p) = Ok (key p') /\
                            transform_node customTags (value p) = Ok (value p'))
               items items').
Proof.
  intros Htr. split; [|split].
  - intros b items Hat.
    destruct (transform_at customTags doc doc' path _ Htr Hat) as (m' & Hm & Hat').
    unfold transform_node in Hm.
    assert (exists fuel, enough_fuel (YAMLSeq b items) = S fuel) as [fuel Hfuel].
    { unfold enough_fuel. exists (2 * height (YAMLSeq b items) + 3). lia. }
    rewrite Hfuel, visit_seq in Hm.
    destruct (forM _ items) as [items'| |] eqn:Hf; try discriminate.
    simpl in Hm. injection Hm as <-. exists items'. split; [done|].
    apply forM_Ok in Hf. eapply Forall2_impl; [exact Hf|].
    intros x x' Hx. apply (visit_any_fuel customTags _ _ _ Hx). discriminate.
  - intros b s Hat.
    destruct (transform_at customTags doc doc' path _ Htr Hat) as (m' & Hm & Hat').
    unfold transform_node in Hm. simpl in Hm. by injection Hm as <-.
  - intros b items Hat Htag.
    destruct (transform_at customTags doc doc' path _ Htr Hat) as (m' & Hm & Hat').
    unfold transform_node in Hm.
    assert (exists fuel, enough_fuel (YAMLMap b items) = S (S fuel)) as [fuel Hfuel].
    { unfold enough_fuel. simpl height. set (h := list_max _). exists (2 * h + 4). lia. }
    rewrite Hfuel, visit_untagged_map in Hm by done.
    destruct (forM _ items) as [items'| |] eqn:Hf; try discriminate.
    simpl in Hm. injection Hm as <-. exists items'. split; [done|].
    apply forM_Ok in Hf. eapply Forall2_impl; [exact Hf|].
    intros p p' Hp. cbv beta in Hp. rewrite visit_pair_S in Hp.
    destruct (Yaml.visit_ fuel _ (key p)) as [k| |] eqn:Hk; try discriminate.
    destruct (Yaml.visit_ fuel _ (value p)) as [x| |] eqn:Hx; try discriminate.
    simpl in Hp. injection Hp as <-. simpl. split.
    + apply (visit_any_fuel customTags _ _ _ Hk). discriminate.
    + apply (visit_any_fuel customTags _ _ _ Hx). discriminate.
Qed.

Lemma X5_witness :
  exists doc' x',
    transform MoreSamples.tagged_seq [] = Ok doc' /\
    doc_at [] doc' =
      Some (YAMLSeq (Samples.at_ (Some "!app:List") 10 30 1) [x'; Samples.plain "b" 26 27 3]).
Proof.
  eexists.
  destruct (proj1 (X5_nodes_without_callback [] MoreSamples.tagged_seq _ []
                     ltac:(vm_compute; reflexivity))
              (Samples.at_ (Some "!app:List") 10 30 1)
              [Scalar (Samples.at_ (Some "!app:Item") 12 23 2) (VString "a");
               Samples.plain "b" 26 27 3] ltac:(reflexivity))
    as (items' & Hat & Hall).
  inversion Hall as [|x x' l l' Hx Hl]; subst.
  inversion Hl as [|y y' l2 l2' Hy Hl2]; subst.
  inversion Hl2; subst.
  exists x'. split; [vm_compute; reflexivity|].
  vm_compute in Hy. injection Hy as <-. exact Hat.
Defined.

(** ** The registry *)

(** X6. The registry acts through the test [tagMap[tag] === 'scalar']
    alone: two lists of declarations that give the kind ['scalar'] to the
    same tags yield the same result.  Any other kind, such as ['map'], and
    no declaration at all are treated alike. *)
Theorem X6_only_the_scalar_kind_matters customTags1 customTags2 doc :
  (forall T, tagMap customTags1 !! T = Some "scalar" <->
             tagMap customTags2 !! T = Some "scalar") ->
  transform doc customTags1 = transform doc customTags2.
Proof.
  intros Hsame.
  assert (forall n, Yaml.callVisitor (transform_visitor customTags1) n =
                    Yaml.callVisitor (transform_visitor customTags2) n) as Hcb.
  { intros [b v | b items | b items | b s | b items]; try reflexivity.
    simpl. unfold transform_Scalar.
    destruct (negb (JS.truthy (tag (base (Scalar b v))))); [reflexivity|].
    rewrite (bool_decide_ext _ _ (Hsame (the_tag (Scalar b v)))). reflexivity. }
  unfold transform, transform_fuel, Yaml.visit.
  destruct (contents doc) as [n|]; [|reflexivity].
  by rewrite (proj1 (visit_ext_both _ _ _ Hcb) n).
Qed.

Lemma X6_witness :
  transform Samples.ref_scalar ["!Ref map"] = transform Samples.ref_scalar [].
Proof.
  apply X6_only_the_scalar_kind_matters. intros T.
  change (tagMap ["!Ref map"]) with (<["!Ref" := "map"]> (∅ : gmap string string)).
  change (tagMap []) with (∅ : gmap string string).
  destruct (decide ("!Ref" = T)) as [<-|Hne].
  - rewrite lookup_insert_eq, lookup_empty. split; discriminate.
  - rewrite lookup_insert_ne by done. reflexivity.
Defined.

(** X7. The registry maps a tag to the kind of the last declaration that
    declares it, and has no entry for a tag that no declaration declares. *)
Theorem X7_last_declaration_wins customTags T :
  tagMap customTags !! T =
  declared_kind <$> last (filter (fun d => declared_tag d = T) customTags).
Proof.
  induction customTags as [|d l IH] using rev_ind.
  - apply lookup_empty.
  - rewrite tagMap_snoc, filter_app.
    change (if decide (1 < length (JS.split " " d))
            then nth 1 (JS.split " " d) EmptyString else "scalar")
      with (declared_kind d).
    destruct (decide (declared_tag d = T)) as [<-|Hne].
    + rewrite lookup_insert_eq.
      rewrite (filter_cons_True _ d []) by reflexivity.
      rewrite filter_nil, last_snoc. reflexivity.
    + rewrite lookup_insert_ne by done.
      rewrite (filter_cons_False _ d []) by done.
      rewrite filter_nil, app_nil_r. exact IH.
Qed.

(** X8. How a declaration is read.  For a tag name [T] without a blank:
    the declaration [T] alone declares [T] with the kind ['scalar']; a
    declaration [T], blank, [rest] declares [T] with what stands between
    the first and the second blank of the declaration.  So the kind is
    empty, and not ['scalar'], when the declaration ends in a blank or has
    two blanks after the tag name. *)
Theorem X8_reading_a_declaration T rest customTags :
  JS.includes " " T = false ->
  declared_tag T = T /\ declared_kind T = "scalar" /\
  declared_tag (T +:+ " " +:+ rest) = T /\
  declared_kind (T +:+ " " +:+ rest) = nth 0 (JS.split " " rest) EmptyString /\
  tagMap (customTags ++ [T +:+ " "]) !! T = Some EmptyString /\
  tagMap (customTags ++ [T +:+ " " +:+ " scalar"]) !! T = Some EmptyString.
Proof.
  intros H.
  assert (forall r, declared_tag (T +:+ " " +:+ r) = T) as Htag.
  { intros r. unfold declared_tag. by rewrite split_at_first_separator. }
  assert (forall r, declared_kind (T +:+ " " +:+ r) = nth 0 (JS.split " " r) EmptyString)
    as Hkind.
  { intros r. unfold declared_kind. rewrite split_at_first_separator by done.
    pose proof (split_nonempty " " r) as Hne.
    destruct (JS.split " " r) as [|w ws]; [done|]. simpl.
    destruct (decide (1 < S (S (length ws)))); [reflexivity | lia]. }
  split; [unfold declared_tag; by rewrite split_no_separator|].
  split; [unfold declared_kind; by rewrite split_no_separator|].
  split; [apply Htag|]. split; [apply Hkind|].
  split.
  - change (T +:+ " ") with (T +:+ " " +:+ EmptyString).
    rewrite tagMap_snoc_kind. rewrite (Htag EmptyString). rewrite lookup_insert_eq.
    by rewrite (Hkind EmptyString).
  - rewrite tagMap_snoc_kind. rewrite (Htag " scalar"). rewrite lookup_insert_eq.
    by rewrite (Hkind " scalar").
Qed.

Lemma X8_witness :
  tagMap ["!Ref "] !! "!Ref" = Some EmptyString /\
  declared_kind ("!Ref" +:+ " " +:+ "map of things") = "map".
Proof.
  destruct (X8_reading_a_declaration "!Ref" "map of things" [] ltac:(reflexivity))
    as (_ & _ & _ & Hkind & Hblank & _).
  split; [exact Hblank | exact Hkind].
Defined.

(** ** Addresses *)

(** X9. [transform] keeps every address: a node that stands at a path in
    the input has a node at the same path in the output, and that node is
    the outcome of visiting the input node by itself.  What becomes of a
    node does not depend on where it stands. *)
Theorem X9_addresses_kept customTags doc doc' path m :
  transform doc customTags = Ok doc' ->
  doc_at path doc = Some m ->
  exists m', doc_at path doc' = Some m' /\ transform_node customTags m = Ok m'.
Proof.
  intros Htr Hat.
  destruct (transform_at customTags doc doc' path m Htr Hat) as (m' & Hm & Hat').
  exists m'. auto.
Qed.

Lemma X9_witness :
  exists doc' m',
    transform MoreSamples.mixed ["!Ref"] = Ok doc' /\
    doc_at [InValue 0] doc' = Some m' /\
    transform_node ["!Ref"] (Scalar (Samples.at_ (Some "!Ref") 3 11 3) (VString "foo")) = Ok m'.
Proof.
  eexists.
  destruct (X9_addresses_kept ["!Ref"] MoreSamples.mixed _ [InValue 0]
              (Scalar (Samples.at_ (Some "!Ref") 3 11 3) (VString "foo"))
              ltac:(vm_compute; reflexivity) ltac:(reflexivity))
    as (m' & Hat & Hm).
  exists m'. split; [vm_compute; reflexivity|]. auto.
Defined.

(** X10. A part of the tree in which no map and no scalar carries a tag
    comes out identical, at the same path, whatever happens to the tagged
    nodes around it. *)
Theorem X10_unmarked_subtree_unchanged customTags doc doc' path m :
  transform doc customTags = Ok doc' ->
  doc_at path doc = Some m ->
  every unmarked m = true ->
  doc_at path doc' = Some m.
Proof.
  intros Htr Hat Hun.
  destruct (transform_at customTags doc doc' path m Htr Hat) as (m' & Hm & Hat').
  rewrite (transform_node_unmarked customTags m Hun) in Hm. by injection Hm as <-.
Qed.

Lemma X10_witness :
  exists doc',
    transform MoreSamples.mixed ["!Ref"] = Ok doc' /\
    doc_at [InValue 1] doc' =
      Some (YAMLMap (Samples.at_ None 15 21 5)
              [createPair (Samples.plain "a" 16 17 6) (Samples.plain "b" 19 20 7)]) /\
    doc_at [InValue 0] doc' <> doc_at [InValue 0] MoreSamples.mixed.
Proof.
  eexists. split; [vm_compute; reflexivity|]. split.
  - apply (X10_unmarked_subtree_unchanged ["!Ref"] MoreSamples.mixed).
    + vm_compute; reflexivity.
    + reflexivity.
    + reflexivity.
  - discriminate.
Defined.

(** ** From the composed documents to the result of [parse] *)




(** ** The [Map] callback on the store *)

Module HeapMapFacts.
Import Heap HeapMap HeapFacts.

Section Frame.
Variable h : heap.

Lemma write_old news l o :
  l < length h -> write l o (h ++ news) = Ok (tt, <[l := o]> h ++ news).
Proof. intros H. unfold write. by rewrite insert_app_l. Qed.

Lemma createPairFrom_string_at news node o key s :
  h !! node = Some o ->
  createPairFrom node key (AString s) (h ++ news) =
  Ok (length h + (length news + 2),
      h ++ (news ++ [OScalar (at_position_of (obj_base o)) (VString key);
                     OScalar (at_position_of (obj_base o)) (VString s);
                     OPair (length h + length news) (length h + (length news + 1))])).
Proof.
  intros H. unfold createPairFrom, createNode_string, createPair.
  rewrite run_bind, alloc_new.
  rewrite run_bind, (get_range_old _ _ _ _ H).
  rewrite run_bind, (set_range_new _ _ _ (OScalar Yaml.fresh (VString key)))
    by (rewrite lookup_app_r by lia; by rewrite Nat.sub_diag).
  rewrite insert_app_r_alt, Nat.sub_diag by lia. simpl insert.
  rewrite run_bind, (get_srcToken_old _ _ _ _ H).
  rewrite run_bind.
  rewrite (set_srcToken_new _ _ _
             (OScalar (mkBase None (range (obj_base o)) None) (VString key)))
    by (rewrite lookup_app_r by lia; by rewrite Nat.sub_diag).
  rewrite insert_app_r_alt, Nat.sub_diag by lia. simpl insert.
  rewrite run_bind, alloc_new, length_app. simpl length.
  rewrite run_bind, (get_range_old _ _ _ _ H).
  rewrite run_bind, (set_range_new _ _ _ (OScalar Yaml.fresh (VString s)))
    by (rewrite lookup_app_r by (rewrite length_app; simpl; lia);
        rewrite length_app; simpl; by rewrite Nat.sub_diag).
  rewrite insert_app_r_alt by (rewrite length_app; simpl; lia).
  rewrite length_app. simpl length. rewrite Nat.sub_diag. simpl insert.
  rewrite run_bind, (get_srcToken_old _ _ _ _ H).
  rewrite run_bind.
  rewrite (set_srcToken_new _ _ _
             (OScalar (mkBase None (range (obj_base o)) None) (VString s)))
    by (rewrite lookup_app_r by (rewrite length_app; simpl; lia);
        rewrite length_app; simpl; by rewrite Nat.sub_diag).
  rewrite insert_app_r_alt by (rewrite length_app; simpl; lia).
  rewrite length_app. simpl length. rewrite Nat.sub_diag. simpl insert.
  rewrite alloc_new. rewrite !length_app. simpl length.
  rewrite <- !app_assoc. simpl app.
  replace (length news + 1 + 1) with (length news + 2) by lia. reflexivity.
Qed.

(** No pair of the store has the new [$type] scalar as key, nor a key
    that holds the same string. *)
Lemma findPair_new_type_key news items k kb :
  Forall (fun it => pair_in h it = true /\ type_key h it = false) items ->
  news !! k = Some (OScalar kb (VString "$type")) ->
  findPair (h ++ news) items (length h + k) = None.
Proof.
  intros Hitems Hk. unfold findPair. apply find_none_iff.
  apply forallb_forall. intros it Hin.
  rewrite List.Forall_forall in Hitems. destruct (Hitems it Hin) as [Hpair Htype].
  unfold pair_in in Hpair. unfold type_key in Htype.
  destruct (h !! it) as [[| | | |ik iv]|] eqn:Hit; try discriminate.
  rewrite (lookup_app_l_Some _ _ _ _ Hit).
  apply bool_decide_eq_true_1 in Hpair as [o' Hik].
  rewrite Hik in Htype.
  rewrite bool_decide_eq_false_2 by (apply lookup_lt_Some in Hik; lia).
  rewrite (lookup_app_l_Some _ _ _ _ Hik), lookup_new, Hk. simpl.
  destruct o'; simpl; try reflexivity. by rewrite Htype.
Qed.

Lemma transform_Map_run node b items T :
  h !! node = Some (OMap b items) -> tag b = Some T -> T <> EmptyString ->
  Forall (fun it => pair_in h it = true /\ type_key h it = false) items ->
  transform_Map node h =
  Ok (None,
      <[node := OMap b (items ++ [length h + 2])]> h ++
      [OScalar (at_position_of b) (VString "$type");
       OScalar (at_position_of b) (VString (stripped T));
       OPair (length h + 0) (length h + 1)]).
Proof.
  intros H Ht Hne Hitems.
  transitivity (transform_Map node (h ++ [])); [by rewrite app_nil_r|].
  unfold transform_Map.
  rewrite run_bind, (get_tag_old _ _ _ _ H). cbv beta iota.
  change (obj_base (OMap b items)) with b.
  rewrite Ht, (truthy_Some T Hne). cbn [negb].
  rewrite run_bind, (get_tag_old _ _ _ _ H). cbv beta iota.
  change (obj_base (OMap b items)) with b. rewrite Ht. cbn [default from_option id].
  rewrite run_bind, (createPairFrom_string_at _ _ _ _ _ H).
  cbv beta iota. cbn [length app Nat.add].
  change (obj_base (OMap b items)) with b.
  rewrite run_bind. unfold add.
  rewrite run_bind, (read_old _ _ _ _ H). cbv beta iota.
  rewrite run_bind, (read_new _ _ 2 (OPair (length h + 0) (length h + 1)))
    by reflexivity.
  cbv beta iota.
  rewrite (findPair_new_type_key _ items 0 (at_position_of b) Hitems) by reflexivity.
  rewrite write_old by (by apply lookup_lt_Some in H).
  reflexivity.
Qed.

End Frame.
End HeapMapFacts.

(** X12. On the store, the [Map] callback works in place.  For a map that
    carries a tag and whose pairs have no [$type] key, it returns
    [undefined]; the map object keeps its reference, its tag, range and
    source token and its pairs, and gets the reference of one new pair
    pushed at the end; the key and the value of that pair are new scalars at
    the position of the map; no other object that existed is written to. *)
Theorem X12_map_callback_in_place (h : list Heap.object) node b items T :
  h !! node = Some (Heap.OMap b items) ->
  tag b = Some T -> T <> EmptyString ->
  Forall (fun it => HeapMap.pair_in h it = true /\ HeapMap.type_key h it = false) items ->
  exists pair keyNode valueNode h',
    HeapMap.transform_Map node h = Ok (None, h') /\
    h' !! node = Some (Heap.OMap b (items ++ [pair])) /\
    h !! pair = None /\ h !! keyNode = None /\ h !! valueNode = None /\
    h' !! pair = Some (Heap.OPair keyNode valueNode) /\
    h' !! keyNode = Some (Heap.OScalar (mkBase None (range b) (srcToken b)) (VString "$type")) /\
    h' !! valueNode =
      Some (Heap.OScalar (mkBase None (range b) (srcToken b)) (VString (stripped T))) /\
    (forall l o, l <> node -> h !! l = Some o -> h' !! l = Some o).
Proof.
  intros H Ht Hne Hitems.
  pose proof (HeapMapFacts.transform_Map_run h node b items T H Ht Hne Hitems) as Hrun.
  pose proof (lookup_lt_Some _ _ _ H) as Hlt.
  assert (length (<[node := Heap.OMap b (items ++ [length h + 2])]> h) = length h) as Hlen
    by apply length_insert.
  exists (length h + 2), (length h + 0), (length h + 1). eexists.
  split; [exact Hrun|].
  split. { apply lookup_app_l_Some. by apply list_lookup_insert_eq. }
  split; [apply lookup_ge_None; lia|].
  split; [apply lookup_ge_None; lia|].
  split; [apply lookup_ge_None; lia|].
  split. { rewrite lookup_app_r by lia. rewrite Hlen. by replace (length h + 2 - length h) with 2 by lia. }
  split. { rewrite lookup_app_r by lia. rewrite Hlen. by replace (length h + 0 - length h) with 0 by lia. }
  split. { rewrite lookup_app_r by lia. rewrite Hlen. by replace (length h + 1 - length h) with 1 by lia. }
  intros l o Hl Hlo. apply lookup_app_l_Some. by rewrite list_lookup_insert_ne.
Qed.

Lemma X12_witness :
  exists h',
    HeapMap.transform_Map 0
      [Heap.OMap (Samples.at_ (Some "!app:DataBlock") 15 24 1) [1];
       Heap.OPair 2 3;
       Heap.OScalar (Samples.at_ None 15 18 2) (VString "abc");
       Heap.OScalar (Samples.at_ None 20 23 3) (VString "def")] = Ok (None, h') /\
    h' !! 0 = Some (Heap.OMap (Samples.at_ (Some "!app:DataBlock") 15 24 1) [1; 6]) /\
    h' !! 1 = Some (Heap.OPair 2 3).
Proof.
  destruct (X12_map_callback_in_place
              [Heap.OMap (Samples.at_ (Some "!app:DataBlock") 15 24 1) [1];
               Heap.OPair 2 3;
               Heap.OScalar (Samples.at_ None 15 18 2) (VString "abc");
               Heap.OScalar (Samples.at_ None 20 23 3) (VString "def")]
              0 (Samples.at_ (Some "!app:DataBlock") 15 24 1) [1] "!app:DataBlock")
    as (pair & keyNode & valueNode & h' & Hrun & _ & _ & _ & _ & _ & _ & _ & Hframe).
  - reflexivity.
  - reflexivity.
  - discriminate.
  - repeat constructor.
  - exists h'. split; [exact Hrun|].
    split; [|apply Hframe; [discriminate | reflexivity]].
    vm_compute in Hrun. injection Hrun as <-. reflexivity.
Defined.

(** ** The two models of the [Scalar] callback *)

Lemma Heap_transform_Scalar_untagged tm (h : list Heap.object) node b v :
  h !! node = Some (Heap.OScalar b v) -> JS.truthy (tag b) = false ->
  Heap.transform_Scalar tm node h = Ok (None, h).
Proof.
  intros H Htag.
  pose proof (HeapFacts.get_tag_old h [] node _ H) as Hget.
  rewrite app_nil_r in Hget. simpl in Hget.
  unfold Heap.transform_Scalar. rewrite HeapFacts.run_bind, Hget. cbv beta iota.
  rewrite Htag. reflexivity.
Qed.

(** X13. The [Scalar] callback on the store and on trees agree, and the
    callback never writes to an object that exists.  Without a tag it
    returns [undefined] and leaves the store as it is.  With a tag it
    returns the reference of a new object, from which the replacement map of
    the tree model is read back; it allocates seven objects when the
    registry gives the tag the kind ['scalar'] and four otherwise. *)
Theorem X13_scalar_callback_refines tm (h : list Heap.object) node b v :
  h !! node = Some (Heap.OScalar b v) ->
  exists r h',
    Heap.transform_Scalar tm node h = Ok (r, h') /\
    (forall l o, h !! l = Some o -> h' !! l = Some o) /\
    (JS.truthy (tag b) = false ->
     r = None /\ h' = h /\
     transform_Scalar tm (Scalar b v) = Ok (Scalar b v, None)) /\
    (forall T, tag b = Some T -> T <> EmptyString ->
     exists newNode m,
       r = Some newNode /\ h !! newNode = None /\
       Heap.reify 3 h' newNode = Some m /\
       transform_Scalar tm (Scalar b v) = Ok (Scalar b v, Some m) /\
       length h' = length h + if bool_decide (tm !! T = Some "scalar") then 7 else 4).
Proof.
  intros H. destruct (JS.truthy (tag b)) eqn:Htag.
  - destruct (truthy_inv _ Htag) as (T & Ht & Hne).
    pose proof (HeapFacts.transform_Scalar_run h tm node b v T H Ht Hne) as Hrun.
    destruct (Heap_transform_Scalar_refines tm h node b v T H Ht Hne)
      as (newNode & h' & Hrun' & Hreify & Htree).
    exists (Some newNode), h'. split; [exact Hrun'|].
    rewrite Hrun in Hrun'. injection Hrun' as <- <-.
    split; [intros l o Hl; by apply lookup_app_l_Some|].
    split; [discriminate|].
    intros T' Ht' _. rewrite Ht in Ht'. injection Ht' as <-.
    exists (length h), (replacement tm b v T).
    split; [reflexivity|]. split; [apply lookup_ge_None; lia|].
    split; [exact Hreify|]. split; [exact Htree|].
    rewrite length_app. destruct (bool_decide _); reflexivity.
  - exists None, h. split; [by apply (Heap_transform_Scalar_untagged tm h node b v)|].
    split; [auto|]. split.
    + intros _. split; [reflexivity|]. split; [reflexivity|].
      by apply transform_Scalar_untagged.
    + intros T Ht Hne. rewrite Ht, (truthy_Some T Hne) in Htag. discriminate.
Qed.

Lemma X13_witness :
  exists r h',
    Heap.transform_Scalar (tagMap ["!Ref map"]) 0
      [Heap.OScalar (Samples.at_ (Some "!Ref") 5 13 3) (VString "foo")] = Ok (r, h') /\
    h' !! 0 = Some (Heap.OScalar (Samples.at_ (Some "!Ref") 5 13 3) (VString "foo")).
Proof.
  destruct (X13_scalar_callback_refines (tagMap ["!Ref map"])
              [Heap.OScalar (Samples.at_ (Some "!Ref") 5 13 3) (VString "foo")] 0
              (Samples.at_ (Some "!Ref") 5 13 3) (VString "foo") ltac:(reflexivity))
    as (r & h' & Hrun & Hframe & _).
  exists r, h'. split; [exact Hrun|]. by apply Hframe.
Defined.
(** ** The second application of [transform] *)




